(** * hasher: streaming multi-algorithm digests (src/hasher.py)

    A shallow embedding of the [Hasher] class: the middle truncation of
    display labels, the validation of the requested algorithms, and the
    two streaming loops [hash_file] and [hash_text], which feed every
    chunk of the input to one [hashlib] object per requested algorithm.

    Python values are modelled as follows.
    - [int] is [Z]; [bytes] is [list byte]; [str] is a list of Unicode
      code points ([pystr]), so that [len] counts code points as Python
      does and [encode("utf-8")] can fail on a lone surrogate.
    - a [dict] is an association list in insertion order, [dict_set]
      overwriting in place as Python does.
    - exceptions are values of [exn]; a call yields an [outcome].
    - the effects of a call (objects created, chunks fed, bytes read,
      progress ticks) are recorded in a trace of [event]s threaded through
      the monad [M]. *)

From Stdlib Require Import Strings.String Strings.Ascii Strings.Byte.
From Stdlib Require Import ZArith List Lia Bool Arith.
Import ListNotations.
Local Open Scope Z_scope.

(** ** Python strings and bytes *)

Definition pystr := list Z.
Definition bytes := list byte.

Definition str (s : string) : pystr :=
  map (fun c => Z.of_nat (nat_of_ascii c)) (list_ascii_of_string s).

Definition byte_of_Z (z : Z) : byte :=
  match Byte.of_N (Z.to_N (z mod 256)) with
  | Some b => b
  | None => x00
  end.

Definition Z_of_byte (b : byte) : Z := Z.of_N (Byte.to_N b).

Definition pystr_eqb (a b : pystr) : bool :=
  if list_eq_dec Z.eq_dec a b then true else false.

(** [x in xs] on a list of strings. *)
Definition py_in (x : pystr) (xs : list pystr) : bool :=
  existsb (pystr_eqb x) xs.

(** [sep.join(xs)]. *)
Fixpoint py_join (sep : pystr) (xs : list pystr) : pystr :=
  match xs with
  | [] => []
  | [x] => x
  | x :: rest => x ++ sep ++ py_join sep rest
  end.

(** Slicing [l[lo:hi]] with Python's treatment of omitted, negative and
    out-of-range bounds. *)
Definition slice_index (n : Z) (i : Z) : Z :=
  if i <? 0 then Z.max (i + n) 0 else Z.min i n.

Definition py_slice {A} (lo hi : option Z) (l : list A) : list A :=
  let n := Z.of_nat (length l) in
  let a := match lo with None => 0 | Some i => slice_index n i end in
  let b := match hi with None => n | Some j => slice_index n j end in
  firstn (Z.to_nat (b - a)) (skipn (Z.to_nat a) l).

(** ** hashlib: incremental MD5, SHA-1, SHA-256 and SHA-512

    The standard library's hash objects, modelled from RFC 1321 and
    FIPS 180-4 as byte-at-a-time Merkle-Damgard accumulators: a chaining
    state, the bytes of the current incomplete block, and the number of
    bytes absorbed so far. *)
Module hashlib.

Definition wrap (w x : Z) : Z := x mod 2 ^ w.
Definition rotl (w x n : Z) : Z :=
  wrap w (Z.lor (Z.shiftl x n) (Z.shiftr x (w - n))).
Definition rotr (w x n : Z) : Z :=
  wrap w (Z.lor (Z.shiftr x n) (Z.shiftl x (w - n))).
Definition wnot (w x : Z) : Z := Z.lxor x (2 ^ w - 1).
Definition wadd (w x y : Z) : Z := wrap w (x + y).

(** Big-endian and little-endian conversions between words and bytes. *)
Fixpoint be_word (bs : list byte) (acc : Z) : Z :=
  match bs with
  | [] => acc
  | b :: rest => be_word rest (acc * 256 + Z_of_byte b)
  end.

Fixpoint le_word (bs : list byte) : Z :=
  match bs with
  | [] => 0
  | b :: rest => Z_of_byte b + 256 * le_word rest
  end.

Fixpoint le_bytes (n : nat) (x : Z) : bytes :=
  match n with
  | O => []
  | S k => byte_of_Z x :: le_bytes k (x / 256)
  end.

Definition be_bytes (n : nat) (x : Z) : bytes := rev (le_bytes n x).

(** The block as a list of words of [k] bytes each. *)
Fixpoint words (conv : list byte -> Z) (k : nat) (count : nat) (bs : bytes)
  : list Z :=
  match count with
  | O => []
  | S c => conv (firstn k bs) :: words conv k c (skipn k bs)
  end.

Definition nthZ (l : list Z) (i : nat) : Z := nth i l 0.

(** *** MD5 (RFC 1321) *)
Definition md5_K : list Z := [
    0xd76aa478; 0xe8c7b756; 0x242070db; 0xc1bdceee; 0xf57c0faf; 0x4787c62a;
    0xa8304613; 0xfd469501; 0x698098d8; 0x8b44f7af; 0xffff5bb1; 0x895cd7be;
    0x6b901122; 0xfd987193; 0xa679438e; 0x49b40821; 0xf61e2562; 0xc040b340;
    0x265e5a51; 0xe9b6c7aa; 0xd62f105d; 0x02441453; 0xd8a1e681; 0xe7d3fbc8;
    0x21e1cde6; 0xc33707d6; 0xf4d50d87; 0x455a14ed; 0xa9e3e905; 0xfcefa3f8;
    0x676f02d9; 0x8d2a4c8a; 0xfffa3942; 0x8771f681; 0x6d9d6122; 0xfde5380c;
    0xa4beea44; 0x4bdecfa9; 0xf6bb4b60; 0xbebfbc70; 0x289b7ec6; 0xeaa127fa;
    0xd4ef3085; 0x04881d05; 0xd9d4d039; 0xe6db99e5; 0x1fa27cf8; 0xc4ac5665;
    0xf4292244; 0x432aff97; 0xab9423a7; 0xfc93a039; 0x655b59c3; 0x8f0ccc92;
    0xffeff47d; 0x85845dd1; 0x6fa87e4f; 0xfe2ce6e0; 0xa3014314; 0x4e0811a1;
    0xf7537e82; 0xbd3af235; 0x2ad7d2bb; 0xeb86d391 ].

Definition md5_S : list Z := [
    7; 12; 17; 22; 7; 12; 17; 22; 7; 12; 17; 22; 7; 12; 17; 22;
    5; 9; 14; 20; 5; 9; 14; 20; 5; 9; 14; 20; 5; 9; 14; 20;
    4; 11; 16; 23; 4; 11; 16; 23; 4; 11; 16; 23; 4; 11; 16; 23;
    6; 10; 15; 21; 6; 10; 15; 21; 6; 10; 15; 21; 6; 10; 15; 21 ].

Definition md5_init : list Z :=
  [0x67452301; 0xefcdab89; 0x98badcfe; 0x10325476].

Definition md5_round (m : list Z) (i : nat) (s : Z * Z * Z * Z)
  : Z * Z * Z * Z :=
  let '(a, b, c, d) := s in
  let q := (i / 16)%nat in
  let f :=
    match q with
    | 0%nat => Z.lor (Z.land b c) (Z.land (wnot 32 b) d)
    | 1%nat => Z.lor (Z.land d b) (Z.land (wnot 32 d) c)
    | 2%nat => Z.lxor (Z.lxor b c) d
    | _ => Z.lxor c (Z.lor b (wnot 32 d))
    end in
  let g :=
    match q with
    | 0%nat => i
    | 1%nat => ((5 * i + 1) mod 16)%nat
    | 2%nat => ((3 * i + 5) mod 16)%nat
    | _ => ((7 * i) mod 16)%nat
    end in
  let t := wrap 32 (f + a + nthZ md5_K i + nthZ m g) in
  (d, wadd 32 b (rotl 32 t (nthZ md5_S i)), b, c).

Definition md5_compress (h : list Z) (block : bytes) : list Z :=
  let m := words le_word 4 16 block in
  let s0 := (nthZ h 0, nthZ h 1, nthZ h 2, nthZ h 3) in
  let '(a, b, c, d) := fold_left (fun s i => md5_round m i s) (seq 0 64) s0 in
  [wadd 32 (nthZ h 0) a; wadd 32 (nthZ h 1) b;
   wadd 32 (nthZ h 2) c; wadd 32 (nthZ h 3) d].

(** *** SHA-1 (FIPS 180-4, section 6.1) *)
Definition sha1_init : list Z :=
  [0x67452301; 0xefcdab89; 0x98badcfe; 0x10325476; 0xc3d2e1f0].

Definition sha1_schedule (block : bytes) : list Z :=
  fold_left
    (fun w t =>
       w ++ [rotl 32 (Z.lxor (Z.lxor (nthZ w (t - 3)) (nthZ w (t - 8)))
                             (Z.lxor (nthZ w (t - 14)) (nthZ w (t - 16)))) 1])
    (seq 16 64) (words (fun bs => be_word bs 0) 4 16 block).

Definition sha1_round (w : list Z) (t : nat) (s : Z * Z * Z * Z * Z)
  : Z * Z * Z * Z * Z :=
  let '(a, b, c, d, e) := s in
  let q := (t / 20)%nat in
  let f :=
    match q with
    | 0%nat => Z.lor (Z.land b c) (Z.land (wnot 32 b) d)
    | 2%nat => Z.lor (Z.lor (Z.land b c) (Z.land b d)) (Z.land c d)
    | _ => Z.lxor (Z.lxor b c) d
    end in
  let k :=
    match q with
    | 0%nat => 0x5a827999
    | 1%nat => 0x6ed9eba1
    | 2%nat => 0x8f1bbcdc
    | _ => 0xca62c1d6
    end in
  (wrap 32 (rotl 32 a 5 + f + e + k + nthZ w t), a, rotl 32 b 30, c, d).

Definition sha1_compress (h : list Z) (block : bytes) : list Z :=
  let w := sha1_schedule block in
  let s0 := (nthZ h 0, nthZ h 1, nthZ h 2, nthZ h 3, nthZ h 4) in
  let '(a, b, c, d, e) :=
    fold_left (fun s t => sha1_round w t s) (seq 0 80) s0 in
  [wadd 32 (nthZ h 0) a; wadd 32 (nthZ h 1) b; wadd 32 (nthZ h 2) c;
   wadd 32 (nthZ h 3) d; wadd 32 (nthZ h 4) e].

(** *** SHA-256 and SHA-512 (FIPS 180-4, sections 6.2 and 6.4)

    The two functions differ in the word width, the number of rounds, the
    round constants and the rotation amounts only.  Their constants are
    defined as the standard defines them (sections 4.2.2, 4.2.3, 5.3.3 and
    5.3.5): the leading bits of the fractional parts of the cube roots,
    for the round constants, and of the square roots, for the initial
    hash value, of the first prime numbers. *)
Definition is_prime (n : Z) : bool :=
  forallb (fun d => negb (n mod Z.of_nat d =? 0)) (seq 2 (Z.to_nat n - 2)).

Definition first_primes (k : nat) : list Z :=
  firstn k (filter is_prime (map Z.of_nat (seq 2 420))).

(** The integer cube root, by bisection between [lo] and [hi]. *)
Fixpoint bisect_cube (fuel : nat) (lo hi n : Z) : Z :=
  match fuel with
  | O => lo
  | S fuel' =>
      let mid := (lo + hi) / 2 in
      if mid =? lo then lo
      else if mid * mid * mid <=? n then bisect_cube fuel' mid hi n
      else bisect_cube fuel' lo mid n
  end.

Definition cube_root (n : Z) : Z := bisect_cube 400 0 (n + 1) n.

Definition cube_root_bits (bits : Z) (prime : Z) : Z :=
  cube_root (prime * 2 ^ (3 * bits)) mod 2 ^ bits.

Definition square_root_bits (bits : Z) (prime : Z) : Z :=
  Z.sqrt (prime * 2 ^ (2 * bits)) mod 2 ^ bits.

Definition sha256_K : list Z :=
  Eval vm_compute in map (cube_root_bits 32) (first_primes 64).

Definition sha256_init : list Z :=
  Eval vm_compute in map (square_root_bits 32) (first_primes 8).

Definition sha512_K : list Z :=
  Eval vm_compute in map (cube_root_bits 64) (first_primes 80).

Definition sha512_init : list Z :=
  Eval vm_compute in map (square_root_bits 64) (first_primes 8).

Record sha2_params := {
  width : Z;                 (* bits per word *)
  rounds : nat;
  konst : list Z;
  big0 : Z * Z * Z;          (* rotations of Sigma0 *)
  big1 : Z * Z * Z;          (* rotations of Sigma1 *)
  small0 : Z * Z * Z;        (* sigma0: two rotations and a shift *)
  small1 : Z * Z * Z         (* sigma1: two rotations and a shift *)
}.

Definition sha256_params : sha2_params :=
  {| width := 32; rounds := 64; konst := sha256_K;
     big0 := (2, 13, 22); big1 := (6, 11, 25);
     small0 := (7, 18, 3); small1 := (17, 19, 10) |}.

Definition sha512_params : sha2_params :=
  {| width := 64; rounds := 80; konst := sha512_K;
     big0 := (28, 34, 39); big1 := (14, 18, 41);
     small0 := (1, 8, 7); small1 := (19, 61, 6) |}.

Section SHA2.
Variable p : sha2_params.
Let w := width p.

Definition Sigma (r : Z * Z * Z) (x : Z) : Z :=
  let '(i, j, k) := r in
  Z.lxor (Z.lxor (rotr w x i) (rotr w x j)) (rotr w x k).

Definition sigma (r : Z * Z * Z) (x : Z) : Z :=
  let '(i, j, k) := r in
  Z.lxor (Z.lxor (rotr w x i) (rotr w x j)) (Z.shiftr x k).

Definition sha2_schedule (block : bytes) : list Z :=
  fold_left
    (fun ws t =>
       ws ++ [wrap w (sigma (small1 p) (nthZ ws (t - 2)) + nthZ ws (t - 7)
                      + sigma (small0 p) (nthZ ws (t - 15))
                      + nthZ ws (t - 16))])
    (seq 16 (rounds p - 16))
    (words (fun bs => be_word bs 0) (Z.to_nat (w / 8)) 16 block).

Definition sha2_round (ws : list Z) (t : nat) (s : list Z) : list Z :=
  match s with
  | [a; b; c; d; e; f; g; h] =>
      let ch := Z.lxor (Z.land e f) (Z.land (wnot w e) g) in
      let maj := Z.lxor (Z.lxor (Z.land a b) (Z.land a c)) (Z.land b c) in
      let t1 :=
        wrap w (h + Sigma (big1 p) e + ch + nthZ (konst p) t + nthZ ws t) in
      let t2 := wrap w (Sigma (big0 p) a + maj) in
      [wadd w t1 t2; a; b; c; wadd w d t1; e; f; g]
  | _ => s
  end.

Definition sha2_compress (h : list Z) (block : bytes) : list Z :=
  let ws := sha2_schedule block in
  let s := fold_left (fun s t => sha2_round ws t s) (seq 0 (rounds p)) h in
  map (fun xy => wadd w (fst xy) (snd xy)) (combine h s).
End SHA2.

(** *** Hash objects *)
Inductive algo := MD5 | SHA1 | SHA256 | SHA512.

Definition block_size (a : algo) : nat :=
  match a with SHA512 => 128%nat | _ => 64%nat end.

Definition initial (a : algo) : list Z :=
  match a with
  | MD5 => md5_init
  | SHA1 => sha1_init
  | SHA256 => sha256_init
  | SHA512 => sha512_init
  end.

Definition compress (a : algo) : list Z -> bytes -> list Z :=
  match a with
  | MD5 => md5_compress
  | SHA1 => sha1_compress
  | SHA256 => sha2_compress sha256_params
  | SHA512 => sha2_compress sha512_params
  end.

(** The encoding of the message length in bits that ends the padding. *)
Definition length_field (a : algo) (bits : Z) : bytes :=
  match a with
  | MD5 => le_bytes 8 bits
  | SHA512 => be_bytes 16 bits
  | _ => be_bytes 8 bits
  end.

Definition output (a : algo) (h : list Z) : bytes :=
  match a with
  | MD5 => flat_map (le_bytes 4) h
  | SHA512 => flat_map (be_bytes 8) h
  | _ => flat_map (be_bytes 4) h
  end.

Record hashobj := {
  algorithm : algo;
  chain : list Z;        (* chaining value *)
  pending : bytes;       (* bytes of the incomplete block *)
  absorbed : Z           (* bytes fed so far *)
}.

(** [hashlib.md5()], [hashlib.sha1()], ... *)
Definition new (a : algo) : hashobj :=
  {| algorithm := a; chain := initial a; pending := []; absorbed := 0 |}.

Definition absorb (h : hashobj) (b : byte) : hashobj :=
  let a := algorithm h in
  let buf := pending h ++ [b] in
  if (length buf =? block_size a)%nat
  then {| algorithm := a; chain := compress a (chain h) buf;
          pending := []; absorbed := absorbed h + 1 |}
  else {| algorithm := a; chain := chain h;
          pending := buf; absorbed := absorbed h + 1 |}.

(** [h.update(data)] *)
Definition update (h : hashobj) (data : bytes) : hashobj :=
  fold_left absorb data h.

Definition padding (a : algo) (n : Z) : bytes :=
  let field := length_field a (8 * n) in
  let bs := Z.of_nat (block_size a) in
  let zeros := (bs - (n + 1 + Z.of_nat (length field)) mod bs) mod bs in
  byte_of_Z 0x80 :: repeat x00 (Z.to_nat zeros) ++ field.

(** [h.digest()]: the object itself is left as it was. *)
Definition digest (h : hashobj) : bytes :=
  output (algorithm h)
         (chain (update h (padding (algorithm h) (absorbed h)))).

Definition hexchar (d : Z) : Z := if d <? 10 then 48 + d else 87 + d.

Definition hex (bs : bytes) : pystr :=
  flat_map (fun b => [hexchar (Z_of_byte b / 16);
                      hexchar (Z_of_byte b mod 16)]) bs.

(** [h.hexdigest()] *)
Definition hexdigest (h : hashobj) : pystr := hex (digest h).

Definition ascii_bytes (s : string) : bytes :=
  map byte_of_ascii (list_ascii_of_string s).

End hashlib.

(** ** Dictionaries

    A Python [dict] keeps its keys in insertion order; assigning to a key
    that is present replaces the value and leaves the key where it is. *)
Definition dict (V : Type) : Type := list (pystr * V).

Fixpoint dict_set {V} (k : pystr) (v : V) (d : dict V) : dict V :=
  match d with
  | [] => [(k, v)]
  | (k', v') :: rest =>
      if pystr_eqb k k' then (k', v) :: rest
      else (k', v') :: dict_set k v rest
  end.

Fixpoint dict_get {V} (k : pystr) (d : dict V) : option V :=
  match d with
  | [] => None
  | (k', v) :: rest => if pystr_eqb k k' then Some v else dict_get k rest
  end.

Definition keys {V} (d : dict V) : list pystr := map fst d.

(** ** Exceptions, effects and the monad of a call *)
Inductive exn :=
| FileNotFoundError (msg : pystr)
| ValueError (msg : pystr)
| UnicodeEncodeError (position : nat)
| AttributeError (name : pystr)
| OSError
| OverflowError.

Inductive outcome (A : Type) :=
| Return (a : A)
| Raise (e : exn)
| OutOfFuel.
Arguments Return {A} a.
Arguments Raise {A} e.
Arguments OutOfFuel {A}.

Inductive event :=
| EvNew (key : pystr)                      (* getattr(hashlib, key)() *)
| EvUpdate (key : pystr) (chunk : bytes)   (* hashers[key].update(chunk) *)
| EvOpen (path : pystr)                    (* open(path, "rb") *)
| EvRead (size : Z) (chunk : bytes)        (* f.read(size) gave chunk *)
| EvBar (total : Z) (desc : pystr)         (* tqdm(total=total, desc=desc) *)
| EvTick (n : Z).                          (* pbar.update(n) *)

Definition trace := list event.

(** A computation yields the events it caused, in order, and how it ended. *)
Definition M (A : Type) : Type := trace * outcome A.

Definition ret {A} (a : A) : M A := ([], Return a).
Definition raise {A} (e : exn) : M A := ([], Raise e).
Definition emit (e : event) : M unit := ([e], Return tt).

Definition bind {A B} (m : M A) (f : A -> M B) : M B :=
  match m with
  | (t, Return a) => let '(t', r) := f a in (t ++ t', r)
  | (t, Raise e) => (t, Raise e)
  | (t, OutOfFuel) => (t, OutOfFuel)
  end.

Arguments bind : simpl never.

Declare Scope py_scope.
Delimit Scope py_scope with py.
Notation "x <- m ;; k" := (bind m (fun x => k))
  (at level 61, m at next level, right associativity) : py_scope.
Notation "m ;; k" := (bind m (fun _ => k))
  (at level 61, right associativity) : py_scope.
Local Open Scope py_scope.

Definition events {A} (m : M A) : trace := fst m.
Definition result {A} (m : M A) : outcome A := snd m.

Definition len {A} (l : list A) : Z := Z.of_nat (length l).

(** ** The file system and binary file objects *)
Inductive node :=
| RegularFile (content : bytes)
| Special (st_size : Z).      (* a directory, a device, ... *)

Definition filesystem := pystr -> option node.

Definition os_path_isfile (fs : filesystem) (path : pystr) : bool :=
  match fs path with
  | Some (RegularFile _) => true
  | _ => false
  end.

Definition os_path_getsize (fs : filesystem) (path : pystr) : M Z :=
  match fs path with
  | Some (RegularFile content) => ret (len content)
  | Some (Special n) => ret n
  | None => raise OSError
  end.

(** [open(path, "rb")]: the file object is the bytes not yet read. *)
Definition open_rb (fs : filesystem) (path : pystr) : M bytes :=
  match fs path with
  | Some (RegularFile content) => emit (EvOpen path) ;; ret content
  | _ => raise OSError
  end.

(** [sys.maxsize]: the largest [Py_ssize_t], on a 64-bit build. *)
Definition sys_maxsize : Z := 9223372036854775807.

(** Whether an integer can be passed where C expects a [Py_ssize_t]. *)
Definition fits_ssize (n : Z) : bool :=
  (- sys_maxsize - 1 <=? n) && (n <=? sys_maxsize).

(** [f.read(size)] on a buffered binary reader: the chunk and the file
    object afterwards.  A size that does not fit a [Py_ssize_t] raises
    [OverflowError] as the argument is converted (its message is left
    out); a size below -1 is refused; -1 reads to the end; any other size
    reads that many bytes or what is left.  Memory is not limited. *)
Definition file_read (size : Z) (f : bytes) : M (bytes * bytes) :=
  if negb (fits_ssize size) then raise OverflowError
  else if size <? -1
  then raise (ValueError (str "read length must be non-negative or -1"))
  else
    let n := if size =? -1 then length f else Z.to_nat size in
    emit (EvRead size (firstn n f)) ;; ret (firstn n f, skipn n f).

(** ** [str.encode("utf-8")] *)
Definition utf8_char (c : Z) : option bytes :=
  if c <? 0 then None
  else if c <? 0x80 then Some [byte_of_Z c]
  else if c <? 0x800 then
    Some [byte_of_Z (0xC0 + c / 64); byte_of_Z (0x80 + c mod 64)]
  else if c <? 0x10000 then
    if (0xD800 <=? c) && (c <=? 0xDFFF) then None
    else Some [byte_of_Z (0xE0 + c / 4096);
               byte_of_Z (0x80 + (c / 64) mod 64);
               byte_of_Z (0x80 + c mod 64)]
  else if c <? 0x110000 then
    Some [byte_of_Z (0xF0 + c / 262144);
          byte_of_Z (0x80 + (c / 4096) mod 64);
          byte_of_Z (0x80 + (c / 64) mod 64);
          byte_of_Z (0x80 + c mod 64)]
  else None.

Fixpoint encode_from (pos : nat) (text : pystr) : M bytes :=
  match text with
  | [] => ret []
  | c :: rest =>
      match utf8_char c with
      | Some bs => tail <- encode_from (S pos) rest ;; ret (bs ++ tail)
      | None => raise (UnicodeEncodeError pos)
      end
  end.

Definition encode_utf8 (text : pystr) : M bytes := encode_from 0 text.

(** ** [range(start, stop, step)] *)
Definition py_range (start stop step : Z) : M (list Z) :=
  if step =? 0 then raise (ValueError (str "range() arg 3 must not be zero"))
  else
    let n :=
      if 0 <? step
      then (if start <? stop then (stop - start - 1) / step + 1 else 0)
      else (if stop <? start then (start - stop - 1) / (- step) + 1 else 0) in
    ret (map (fun k => start + Z.of_nat k * step) (seq 0 (Z.to_nat n))).

(** ** class Hasher *)
Module Hasher.

Definition support_hash_algorithms : list pystr :=
  [str "md5"; str "sha1"; str "sha256"; str "sha512"].

Definition default_hash_algorithms : list pystr := support_hash_algorithms.

Definition _shorten_middle_text (text : pystr) (text_max_len : Z) : pystr :=
  if len text <=? text_max_len then text
  else
    let part := (text_max_len - 3) / 2 in
    py_slice None (Some part) text ++ str "..."
      ++ py_slice (Some (- part)) None text.

Fixpoint _validate_hash_algorithms (hash_algorithms : list pystr)
  : M (list pystr) :=
  match hash_algorithms with
  | [] => ret []
  | i :: rest =>
      if py_in i support_hash_algorithms
      then (checked <- _validate_hash_algorithms rest ;; ret (i :: checked))
      else raise (ValueError (str "Unsupported hash_algorithm: " ++ i))
  end.

(** [getattr(hashlib, i)]: the four constructors the validated names can
    reach. *)
Definition getattr_hashlib (i : pystr) : option hashlib.algo :=
  if pystr_eqb i (str "md5") then Some hashlib.MD5
  else if pystr_eqb i (str "sha1") then Some hashlib.SHA1
  else if pystr_eqb i (str "sha256") then Some hashlib.SHA256
  else if pystr_eqb i (str "sha512") then Some hashlib.SHA512
  else None.

(** [{i: getattr(hashlib, i)() for i in hash_algorithms}] *)
Fixpoint make_hashers (hash_algorithms : list pystr)
    (hashers : dict hashlib.hashobj) : M (dict hashlib.hashobj) :=
  match hash_algorithms with
  | [] => ret hashers
  | i :: rest =>
      match getattr_hashlib i with
      | Some a =>
          emit (EvNew i) ;;
          make_hashers rest (dict_set i (hashlib.new a) hashers)
      | None => raise (AttributeError i)
      end
  end.

(** [for h in hashers.values(): h.update(chunk)] *)
Fixpoint update_all (chunk : bytes) (hashers : dict hashlib.hashobj)
  : M (dict hashlib.hashobj) :=
  match hashers with
  | [] => ret []
  | (i, h) :: rest =>
      emit (EvUpdate i chunk) ;;
      rest' <- update_all chunk rest ;;
      ret ((i, hashlib.update h chunk) :: rest')
  end.

(** [{i: h.hexdigest() for i, h in hashers.items()}] *)
Definition hexdigests (hashers : dict hashlib.hashobj) : dict pystr :=
  fold_left (fun d ih => dict_set (fst ih) (hashlib.hexdigest (snd ih)) d)
            hashers [].

Definition describe (hash_algorithms : list pystr) (label : pystr) : pystr :=
  str "[Hasher Algorithms (" ++ py_join (str ", ") hash_algorithms
    ++ str ")] " ++ _shorten_middle_text label 50.

(** [while chunk := f.read(chunk_size): ...] *)
Fixpoint read_loop (fuel : nat) (chunk_size : Z) (f : bytes)
    (hashers : dict hashlib.hashobj) : M (dict hashlib.hashobj) :=
  match fuel with
  | O => ([], OutOfFuel)
  | S fuel' =>
      r <- file_read chunk_size f ;;
      let '(chunk, f') := r in
      match chunk with
      | [] => ret hashers
      | _ =>
          hashers' <- update_all chunk hashers ;;
          emit (EvTick (len chunk)) ;;
          read_loop fuel' chunk_size f' hashers'
      end
  end.

(** The body of the [with] block of [hash_file]; every pass of the loop
    consumes at least one byte, so one pass more than the bytes left is
    enough. *)
Definition stream_file (chunk_size : Z) (f : bytes)
    (hashers : dict hashlib.hashobj) : M (dict hashlib.hashobj) :=
  read_loop (S (length f)) chunk_size f hashers.

Definition hash_file (fs : filesystem) (file_path : pystr)
    (hash_algorithms : option (list pystr)) (chunk_size_mb : Z)
  : M (dict pystr) :=
  if negb (os_path_isfile fs file_path)
  then raise (FileNotFoundError (str "Not found file_path: " ++ file_path))
  else
    let hash_algorithms :=
      match hash_algorithms with
      | None => default_hash_algorithms
      | Some l => l
      end in
    total <- os_path_getsize fs file_path ;;
    let desc := describe hash_algorithms file_path in
    let chunk_size := chunk_size_mb * 1024 * 1024 in
    hash_algorithms <- _validate_hash_algorithms hash_algorithms ;;
    hashers <- make_hashers hash_algorithms [] ;;
    f <- open_rb fs file_path ;;
    emit (EvBar total desc) ;;
    hashers <- stream_file chunk_size f hashers ;;
    ret (hexdigests hashers).

(** [for i in range(0, total, chunk_size): ...] *)
Fixpoint slice_loop (data : bytes) (chunk_size : Z) (indices : list Z)
    (hashers : dict hashlib.hashobj) : M (dict hashlib.hashobj) :=
  match indices with
  | [] => ret hashers
  | i :: rest =>
      let chunk := py_slice (Some i) (Some (i + chunk_size)) data in
      hashers' <- update_all chunk hashers ;;
      emit (EvTick (len chunk)) ;;
      slice_loop data chunk_size rest hashers'
  end.

(** The body of the [with] block of [hash_text]. *)
Definition stream_text (data : bytes) (chunk_size : Z)
    (hashers : dict hashlib.hashobj) : M (dict hashlib.hashobj) :=
  indices <- py_range 0 (len data) chunk_size ;;
  slice_loop data chunk_size indices hashers.

Definition hash_text (text : pystr)
    (hash_algorithms : option (list pystr)) (chunk_size_mb : Z)
  : M (dict pystr) :=
  let hash_algorithms :=
    match hash_algorithms with
    | None => default_hash_algorithms
    | Some l => l
    end in
  data <- encode_utf8 text ;;
  let total := len data in
  let desc := describe hash_algorithms text in
  let chunk_size := chunk_size_mb * 1024 * 1024 in
  hash_algorithms <- _validate_hash_algorithms hash_algorithms ;;
  hashers <- make_hashers hash_algorithms [] ;;
  emit (EvBar total desc) ;;
  hashers <- stream_text data chunk_size hashers ;;
  ret (hexdigests hashers).

End Hasher.

Import Hasher.

(** ** Vocabulary of the properties *)

(** The requested list, after the default has been filled in. *)
Definition requested (hash_algorithms : option (list pystr)) : list pystr :=
  match hash_algorithms with
  | None => default_hash_algorithms
  | Some l => l
  end.

(** Every identifier of the list is a supported one. *)
Definition supported (l : list pystr) : Prop :=
  Forall (fun i => In i support_hash_algorithms) l.

(** The first identifier of the list that is not supported, if any. *)
Definition first_unsupported (l : list pystr) : option pystr :=
  find (fun i => negb (py_in i support_hash_algorithms)) l.

(** The elements of a list, each kept at its first occurrence. *)
Fixpoint first_occurrences (l : list pystr) : list pystr :=
  match l with
  | [] => []
  | x :: rest =>
      x :: filter (fun y => negb (pystr_eqb y x)) (first_occurrences rest)
  end.

(** The chunks that a trace feeds to the hash object stored under [key]. *)
Fixpoint fed (key : pystr) (t : trace) : list bytes :=
  match t with
  | [] => []
  | EvUpdate k chunk :: rest =>
      if pystr_eqb k key then chunk :: fed key rest else fed key rest
  | _ :: rest => fed key rest
  end.

(** The chunks that a trace reads from the file. *)
Fixpoint reads (t : trace) : list bytes :=
  match t with
  | [] => []
  | EvRead _ chunk :: rest => chunk :: reads rest
  | _ :: rest => reads rest
  end.

(** [cs] cuts [data] into consecutive non-empty chunks, all of [size]
    bytes but possibly the last. *)
Definition partitions (size : Z) (data : bytes) (cs : list bytes) : Prop :=
  concat cs = data
  /\ Forall (fun c => c <> []) cs
  /\ (forall i, (S i < length cs)%nat -> len (nth i cs []) = size)
  /\ Forall (fun c => 0 < len c <= size) cs.

(** The input cut every [n] bytes. *)
Fixpoint chop (fuel n : nat) (data : bytes) : list bytes :=
  match fuel with
  | O => []
  | S fuel' =>
      match firstn n data with
      | [] => []
      | c => c :: chop fuel' n (skipn n data)
      end
  end.

Definition chunks (n : nat) (data : bytes) : list bytes :=
  chop (length data) n data.

(** The published digests of the empty input. *)
Definition empty_digest (i : pystr) : option pystr :=
  if pystr_eqb i (str "md5") then
    Some (str "d41d8cd98f00b204e9800998ecf8427e")
  else if pystr_eqb i (str "sha1") then
    Some (str "da39a3ee5e6b4b0d3255bfef95601890afd80709")
  else if pystr_eqb i (str "sha256") then
    Some (str "e3b0c44298fc1c149afbf4c8996fb92427ae41e4649b934ca495991b7852b855")
  else if pystr_eqb i (str "sha512") then
    Some (str ("cf83e1357eefb8bdf1542850d66d8007d620e4050b5715dc83f4a921d36ce9ce"
               ++ "47d0d13c5d85f2b0ff8318d2877eec2f63b931bd47417a81a538327af927da3e"))
  else None.

(** All hash objects of a dictionary fed the same chunk. *)
Definition feed (chunk : bytes) (hashers : dict hashlib.hashobj)
  : dict hashlib.hashobj :=
  map (fun ih => (fst ih, hashlib.update (snd ih) chunk)) hashers.

(** The events of one pass of a loop over the keys [ks]. *)
Definition pass (ks : list pystr) (chunk : bytes) : trace :=
  map (fun k => EvUpdate k chunk) ks ++ [EvTick (len chunk)].

(** The constructor that [getattr(hashlib, i)] finds for a supported
    name, called once. *)
Definition construct (i : pystr) : hashlib.hashobj :=
  match getattr_hashlib i with
  | Some a => hashlib.new a
  | None => hashlib.new hashlib.MD5
  end.

(** The hash objects that the dictionary comprehension builds. *)
Definition fresh_hashers (l : list pystr) : dict hashlib.hashobj :=
  map (fun i => (i, construct i)) (first_occurrences l).

(** The digests of [data], each computed in one piece, under the
    requested names. *)
Definition digests (l : list pystr) (data : bytes) : dict pystr :=
  map (fun i => (i, hashlib.hexdigest (hashlib.update (construct i) data)))
      (first_occurrences l).

(** The number of chunks of [total] bytes cut every [c]. *)
Definition chunk_count (total c : Z) : nat :=
  Z.to_nat (if 0 <? total then (total - 1) / c + 1 else 0).

(** [out] keeps a prefix and a suffix of [text] of the same length [k],
    joined by three dots, within [m] characters in all. *)
Definition middle_truncated (text : pystr) (m : Z) (out : pystr) : Prop :=
  exists k : nat,
    (k <= length text)%nat
    /\ out = firstn k text ++ str "..." ++ skipn (length text - k) text
    /\ len out <= m.

(** A file system with one file, [a.txt], that holds [abc]. *)
Definition example_fs : filesystem :=
  fun path =>
    if pystr_eqb path (str "a.txt")
    then Some (RegularFile (hashlib.ascii_bytes "abc"))
    else None.



(** The digest of [data] under one algorithm, in one piece. *)
Definition hexdigest_of (a : hashlib.algo) (data : bytes) : pystr :=
  hashlib.hexdigest (hashlib.update (hashlib.new a) data).

(** 130 bytes, more than one block for every algorithm. *)
Definition long_message : bytes :=
  map (fun i => byte_of_Z (Z.of_nat i * 7 + 3)) (seq 0 130).

(** ** The command line: [Hasher._display_table] and [Hasher.cli]

    [typer] hands [main] its arguments, [None] when an option is absent.
    The table goes to [rich], which is taken as a parameter [render]: the
    exception that printing a table raises, if any. *)
Module Cli.

(** [bool(s)] for an optional string: [None] and [""] are false. *)
Definition truthy (s : option pystr) : bool :=
  match s with
  | Some (_ :: _) => true
  | _ => false
  end.

(** The string behind an argument that is known to be given. *)
Definition given (s : option pystr) : pystr :=
  match s with
  | Some x => x
  | None => []
  end.

(** [c.isspace()] for one character. *)
Definition is_space (c : Z) : bool :=
  ((0x09 <=? c) && (c <=? 0x0D)) || ((0x1C <=? c) && (c <=? 0x20))
  || (c =? 0x85) || (c =? 0xA0) || (c =? 0x1680)
  || ((0x2000 <=? c) && (c <=? 0x200A))
  || (c =? 0x2028) || (c =? 0x2029) || (c =? 0x202F) || (c =? 0x205F)
  || (c =? 0x3000).

Fixpoint lstrip (s : pystr) : pystr :=
  match s with
  | [] => []
  | c :: rest => if is_space c then lstrip rest else s
  end.

(** [s.strip()] *)
Definition py_strip (s : pystr) : pystr := rev (lstrip (rev (lstrip s))).

(** [s.split(sep)] for a separator of one character. *)
Fixpoint py_split (sep : Z) (s : pystr) : list pystr :=
  match s with
  | [] => [[]]
  | c :: rest =>
      if c =? sep then [] :: py_split sep rest
      else
        match py_split sep rest with
        | piece :: pieces => (c :: piece) :: pieces
        | [] => [[c]]
        end
  end.

Definition comma : Z := 44.

(** [[i.strip() for i in hash_algorithm.split(",")] if hash_algorithm
    else self.default_hash_algorithms] *)
Definition parse_algorithms (hash_algorithm : option pystr) : list pystr :=
  if truthy hash_algorithm
  then map py_strip (py_split comma (given hash_algorithm))
  else default_hash_algorithms.

Record column := {
  header : pystr;
  style : pystr;
  overflow : option pystr
}.

Record table := {
  title : pystr;
  columns : list column;
  table_rows : list (list pystr)
}.

Definition row : Type := pystr * pystr * pystr * pystr.

Inductive cli_event :=
| CliIsFile (path : pystr)       (* os.path.isfile(input) in main *)
| CliEcho (msg : pystr)          (* typer.echo(msg) *)
| CliError (e : exn)             (* typer.secho(f"Error: {e}", fg=RED) *)
| CliEngine (e : event)          (* an event of hash_file or hash_text *)
| CliPrintText (s : pystr)       (* self.console.print(s) *)
| CliPrintTable (t : table).     (* self.console.print(table) *)

Inductive cli_result :=
| Finished                       (* main returns, exit status 0 *)
| Exit (code : Z)                (* raise typer.Exit(code=code) *)
| NoFuel.

(** The [Table] that [_display_table] fills. *)
Definition build_table (rows : list row) : table :=
  {| title := str "[Hasher Result]";
     columns :=
       [ {| header := str "Hash Algorithm"; style := str "yellow";
            overflow := None |};
         {| header := str "Type"; style := str "magenta"; overflow := None |};
         {| header := str "Input"; style := str "cyan";
            overflow := Some (str "fold") |};
         {| header := str "Hash"; style := str "green"; overflow := None |} ];
     table_rows :=
       map (fun r : row =>
              let '(r0, r1, r2, r3) := r in
              [r0; r1; _shorten_middle_text r2 50; r3]) rows |}.

Definition _display_table (render : table -> option exn) (rows : list row)
  : list cli_event * option exn :=
  let t := build_table rows in
  match render t with
  | None => ([CliPrintText [10]; CliPrintTable t], None)
  | Some e => ([CliPrintText [10]], Some e)
  end.

(** [file or text] *)
Definition py_or (a b : option pystr) : option pystr :=
  if truthy a then a else b.

(** The first lines of [main]: a positional argument given alone becomes
    the file, when it is one, or else the text. *)
Definition resolve (fs : filesystem) (input file text : option pystr)
  : list cli_event * (option pystr * option pystr) :=
  if truthy input && negb (truthy (py_or file text))
  then
    let file := if os_path_isfile fs (given input) then input else None in
    let text := if negb (truthy file) then input else None in
    ([CliIsFile (given input)], (file, text))
  else ([], (file, text)).

(** The [try] block of [main] and its handler. *)
Definition hash_and_show (fs : filesystem) (render : table -> option exn)
    (file text hash_algorithm : option pystr) (chunk_size : Z)
  : list cli_event * cli_result :=
  let hash_algorithms := parse_algorithms hash_algorithm in
  let run :=
    if truthy file
    then hash_file fs (given file) (Some hash_algorithms) chunk_size
    else hash_text (given text) (Some hash_algorithms) chunk_size in
  match run with
  | (t, Return results) =>
      let rows :=
        map (fun kv : pystr * pystr =>
               (fst kv, if truthy file then str "file" else str "text",
                given (py_or file text), snd kv)) results in
      match _display_table render rows with
      | (shown, None) => (map CliEngine t ++ shown, Finished)
      | (shown, Some e) => (map CliEngine t ++ shown ++ [CliError e], Exit 1)
      end
  | (t, Raise e) => (map CliEngine t ++ [CliError e], Exit 1)
  | (t, OutOfFuel) => (map CliEngine t, NoFuel)
  end.

Definition main (fs : filesystem) (render : table -> option exn)
    (input file text hash_algorithm : option pystr) (chunk_size : Z)
  : list cli_event * cli_result :=
  let '(seen, (file, text)) := resolve fs input file text in
  if negb (truthy file) && negb (truthy text)
  then (seen ++ [CliEcho (str "Error: provide --file or --text")], Exit 1)
  else if truthy file && truthy text
  then (seen ++ [CliEcho (str "Error: choose only one of --file or --text")],
        Exit 1)
  else
    let '(shown, status) :=
      hash_and_show fs render file text hash_algorithm chunk_size in
    (seen ++ shown, status).

End Cli.

(** ** Vocabulary of the further properties *)

(** The bytes that a trace reports to the progress bar. *)
Fixpoint ticked (t : trace) : Z :=
  match t with
  | [] => 0
  | EvTick n :: rest => n + ticked rest
  | _ :: rest => ticked rest
  end.


(** The names under which a trace makes hash objects. *)
Fixpoint made (t : trace) : list pystr :=
  match t with
  | [] => []
  | EvNew key :: rest => key :: made rest
  | _ :: rest => made rest
  end.

(** [digest_size] of the four algorithms, in bytes. *)
Definition digest_size (a : hashlib.algo) : nat :=
  match a with
  | hashlib.MD5 => 16
  | hashlib.SHA1 => 20
  | hashlib.SHA256 => 32
  | hashlib.SHA512 => 64
  end%nat.

(** The number of words of the chaining value. *)
Definition chain_words (a : hashlib.algo) : nat :=
  match a with
  | hashlib.MD5 => 4
  | hashlib.SHA1 => 5
  | _ => 8
  end%nat.

(** A digit or a letter from [a] to [f]. *)
Definition lower_hex (c : Z) : Prop := 48 <= c <= 57 \/ 97 <= c <= 102.

(** What a run of [main] shows last: a printed table, or a message. *)
Definition is_table (e : Cli.cli_event) : bool :=
  match e with
  | Cli.CliPrintTable _ => true
  | _ => false
  end.

Definition is_message (e : Cli.cli_event) : bool :=
  match e with
  | Cli.CliEcho _ | Cli.CliError _ => true
  | _ => false
  end.

(** The row of the table for the algorithm [i]: its name, the kind of
    input, the label as displayed, and the digest of [data] in one
    piece. *)
Definition shown_row (kind label : pystr) (data : bytes) (i : pystr)
  : list pystr :=
  [i; kind; _shorten_middle_text label 50;
   hashlib.hexdigest (hashlib.update (construct i) data)].

(** A renderer that never fails. *)
Definition quiet_render : Cli.table -> option exn := fun _ => None.

(** How a run ends: the table last and alone, or one message last and no
    table. *)
Definition ends_well (out : list Cli.cli_event * Cli.cli_result) : Prop :=
  match snd out with
  | Cli.Finished =>
      exists before t,
        fst out = before ++ [Cli.CliPrintTable t]
        /\ existsb is_table before = false
        /\ existsb is_message before = false
  | Cli.Exit code =>
      code = 1
      /\ existsb is_table (fst out) = false
      /\ exists before msg,
          fst out = before ++ [msg]
          /\ is_message msg = true
          /\ existsb is_message before = false
  | Cli.NoFuel => False
  end.

(** * Lemmas *)

(** ** Strings *)

Lemma pystr_eqb_eq a b : pystr_eqb a b = true <-> a = b.
Proof.
  unfold pystr_eqb. destruct (list_eq_dec Z.eq_dec a b); split; congruence.
Qed.

Lemma pystr_eqb_refl a : pystr_eqb a a = true.
Proof. now apply pystr_eqb_eq. Qed.

Lemma pystr_eqb_neq a b : pystr_eqb a b = false <-> a <> b.
Proof.
  unfold pystr_eqb. destruct (list_eq_dec Z.eq_dec a b); split; congruence.
Qed.

Lemma py_in_In x xs : py_in x xs = true <-> In x xs.
Proof.
  unfold py_in. rewrite existsb_exists. split.
  - intros (y & Hy & E). apply pystr_eqb_eq in E. now subst.
  - intros H. exists x. split; [assumption | apply pystr_eqb_refl].
Qed.

(** ** The monad *)

Lemma bind_Return {A B} (t : trace) (a : A) (f : A -> M B) :
  bind (t, Return a) f = (t ++ fst (f a), snd (f a)).
Proof. unfold bind. now destruct (f a). Qed.

Lemma bind_ret {A B} (a : A) (f : A -> M B) : bind (ret a) f = f a.
Proof. unfold ret. rewrite bind_Return. now destruct (f a). Qed.

Lemma bind_Raise {A B} (t : trace) (e : exn) (f : A -> M B) :
  bind (t, Raise e) f = (t, Raise e).
Proof. reflexivity. Qed.

Lemma bind_emit {B} (e : event) (k : M B) :
  bind (emit e) (fun _ => k) = (e :: fst k, snd k).
Proof. unfold emit. now rewrite bind_Return. Qed.

(** ** hashlib: feeding in pieces *)

Lemma update_app h a b :
  hashlib.update (hashlib.update h a) b = hashlib.update h (a ++ b).
Proof. unfold hashlib.update. now rewrite fold_left_app. Qed.

Lemma update_nil h : hashlib.update h [] = h.
Proof. reflexivity. Qed.

Lemma feed_nil d : feed [] d = d.
Proof.
  unfold feed. rewrite <- (map_id d) at 2. apply map_ext.
  now intros [k h].
Qed.

Lemma feed_app a b d : feed b (feed a d) = feed (a ++ b) d.
Proof.
  unfold feed. rewrite map_map. apply map_ext. intros [k h]; simpl.
  now rewrite update_app.
Qed.

Lemma keys_feed chunk d : keys (feed chunk d) = keys d.
Proof. unfold keys, feed. rewrite map_map. now apply map_ext. Qed.

Lemma feed_chunks cs d :
  fold_left (fun d c => feed c d) cs d = feed (concat cs) d.
Proof.
  revert d. induction cs as [|c cs IH]; intros d; simpl.
  - now rewrite feed_nil.
  - now rewrite IH, feed_app.
Qed.

(** ** The loop over the hash objects *)

Lemma update_all_eq chunk d :
  update_all chunk d
  = (map (fun k => EvUpdate k chunk) (keys d), Return (feed chunk d)).
Proof.
  induction d as [|[k h] d IH]; simpl; [reflexivity|].
  rewrite IH, bind_Return, bind_emit. unfold ret. simpl.
  now rewrite app_nil_r.
Qed.

(** ** Cutting the input into chunks *)

Lemma firstn_empty {A} n (l : list A) :
  firstn n l = [] -> n = 0%nat \/ l = [].
Proof. destruct n, l; simpl; intros H; auto; discriminate. Qed.

Lemma chop_nil fuel n : chop fuel n [] = [].
Proof. destruct fuel; simpl; [reflexivity|]. now rewrite firstn_nil. Qed.

Lemma chop_cons fuel n data :
  (0 < n)%nat -> data <> [] ->
  chop (S fuel) n data = firstn n data :: chop fuel n (skipn n data).
Proof.
  intros Hn Hd. simpl. destruct (firstn n data) eqn:E; [|reflexivity].
  apply firstn_empty in E. destruct E; [lia | contradiction].
Qed.

Lemma chop_concat n fuel : (0 < n)%nat ->
  forall data, (length data <= fuel)%nat -> concat (chop fuel n data) = data.
Proof.
  intros Hn. induction fuel as [|fuel IH]; intros data Hlen.
  - destruct data; [reflexivity | simpl in Hlen; lia].
  - destruct data as [|b data]; [now rewrite chop_nil|].
    rewrite chop_cons by (auto; discriminate).
    cbn [concat]. rewrite IH; [apply firstn_skipn|].
    rewrite length_skipn. lia.
Qed.

Lemma chop_bounds n fuel : (0 < n)%nat ->
  forall data,
    Forall (fun c => c <> [] /\ (length c <= n)%nat) (chop fuel n data).
Proof.
  intros Hn. induction fuel as [|fuel IH]; intros data; [constructor|].
  destruct data as [|b data]; [rewrite chop_nil; constructor|].
  rewrite chop_cons by (auto; discriminate).
  constructor; [|apply IH]. split.
  - destruct n; [lia | discriminate].
  - rewrite length_firstn. lia.
Qed.

Lemma chop_full n fuel : (0 < n)%nat ->
  forall data i, (S i < length (chop fuel n data))%nat ->
    length (nth i (chop fuel n data) []) = n.
Proof.
  intros Hn. induction fuel as [|fuel IH]; intros data i Hi.
  - simpl in Hi. lia.
  - destruct data as [|b data]; [rewrite chop_nil in Hi; simpl in Hi; lia|].
    rewrite chop_cons in * by (auto; discriminate).
    destruct i as [|i].
    + cbn [nth]. rewrite length_firstn.
      destruct (skipn n (b :: data)) eqn:E.
      * rewrite chop_nil in Hi. simpl in Hi. lia.
      * assert (L : length (skipn n (b :: data)) <> 0%nat)
          by (rewrite E; discriminate).
        rewrite length_skipn in L. lia.
    + cbn [nth]. apply IH. cbn [length] in Hi. lia.
Qed.

Lemma chop_partitions n fuel data :
  (0 < n)%nat -> (length data <= fuel)%nat ->
  partitions (Z.of_nat n) data (chop fuel n data).
Proof.
  intros Hn Hlen. unfold partitions, len. repeat split.
  - now apply chop_concat.
  - eapply Forall_impl; [|apply (chop_bounds n fuel Hn)].
    now intros c [H _].
  - intros i Hi. now rewrite chop_full.
  - eapply Forall_impl; [|apply (chop_bounds n fuel Hn)].
    intros c [H1 H2]. destruct c; [contradiction|]. simpl length in *. lia.
Qed.

(** Fuel beyond the number of chunks changes nothing. *)
Lemma chop_enough n : (0 < n)%nat ->
  forall f1 f2 data,
    (length data <= f1 * n)%nat -> (length data <= f2 * n)%nat ->
    chop f1 n data = chop f2 n data.
Proof.
  intros Hn. induction f1 as [|f1 IH]; intros f2 data H1 H2.
  - destruct data; [now rewrite !chop_nil | simpl in H1; lia].
  - destruct data as [|b data]; [now rewrite !chop_nil|].
    destruct f2 as [|f2]; [simpl in H2; lia|].
    rewrite !chop_cons by (auto; discriminate).
    f_equal. apply IH; rewrite length_skipn; lia.
Qed.

Lemma chop_chunks n fuel data :
  (0 < n)%nat -> (length data <= fuel * n)%nat ->
  chop fuel n data = chunks n data.
Proof.
  intros Hn H. unfold chunks. apply chop_enough; [assumption.. | nia].
Qed.

Lemma chunks_partitions n data :
  (0 < n)%nat -> partitions (Z.of_nat n) data (chunks n data).
Proof. intros Hn. now apply chop_partitions. Qed.

(** The windows [data[k*n : k*n + n]] are the chunks. *)
Lemma windows_chop n : (0 < n)%nat ->
  forall cnt data,
    (length data <= cnt * n)%nat ->
    (cnt = 0 \/ pred cnt * n < length data)%nat ->
    map (fun k => firstn n (skipn (k * n) data)) (seq 0 cnt)
    = chop cnt n data.
Proof.
  intros Hn. induction cnt as [|cnt IH]; intros data Hle Hgt; [reflexivity|].
  destruct Hgt as [Hgt|Hgt]; [discriminate|]. simpl pred in Hgt.
  destruct data as [|b data]; [simpl in Hgt; lia|].
  rewrite chop_cons by (auto; discriminate).
  cbn [seq map]. f_equal.
  rewrite <- seq_shift, map_map. rewrite <- IH.
  - apply map_ext. intros k. rewrite skipn_skipn.
    now replace (S k * n)%nat with (k * n + n)%nat by lia.
  - rewrite length_skipn. lia.
  - destruct cnt as [|cnt]; [now left | right].
    rewrite length_skipn. simpl pred. lia.
Qed.

(** ** Slices and ranges *)

Lemma py_slice_window {A} (l : list A) i c :
  0 <= i <= len l -> 0 <= c ->
  py_slice (Some i) (Some (i + c)) l
  = firstn (Z.to_nat c) (skipn (Z.to_nat i) l).
Proof.
  unfold len. intros Hi Hc. unfold py_slice, slice_index.
  destruct (Z.ltb_spec i 0); [lia|].
  destruct (Z.ltb_spec (i + c) 0); [lia|].
  rewrite (Z.min_l i) by lia.
  destruct (Z.le_gt_cases (i + c) (Z.of_nat (length l))).
  - rewrite Z.min_l by lia. f_equal. lia.
  - rewrite Z.min_r by lia.
    rewrite !firstn_all2; [reflexivity | |]; rewrite length_skipn; lia.
Qed.

Lemma py_range_zero start stop :
  py_range start stop 0
  = raise (ValueError (str "range() arg 3 must not be zero")).
Proof. reflexivity. Qed.

Lemma py_range_chunks total c :
  0 < c ->
  py_range 0 total c
  = ret (map (fun k => Z.of_nat k * c) (seq 0 (chunk_count total c))).
Proof.
  intros Hc. unfold py_range, chunk_count.
  destruct (Z.eqb_spec c 0); [lia|].
  destruct (Z.ltb_spec 0 c); [|lia].
  rewrite Z.sub_0_r. reflexivity.
Qed.

Lemma py_range_negative total c :
  c < 0 -> 0 <= total -> py_range 0 total c = ret [].
Proof.
  intros Hc Ht. unfold py_range.
  destruct (Z.eqb_spec c 0); [lia|].
  destruct (Z.ltb_spec 0 c); [lia|].
  destruct (Z.ltb_spec total 0); [lia|]. reflexivity.
Qed.

Lemma chunk_count_bounds (data : bytes) c :
  0 < c ->
  let cnt := chunk_count (len data) c in
  let n := Z.to_nat c in
  (length data <= cnt * n)%nat
  /\ (cnt = 0 \/ pred cnt * n < length data)%nat.
Proof.
  intros Hc cnt n. subst cnt n. unfold chunk_count, len.
  destruct (Z.ltb_spec 0 (Z.of_nat (length data))) as [Hpos|Hz].
  - set (t := Z.of_nat (length data)) in *.
    assert (Hq := Z.div_mod (t - 1) c ltac:(lia)).
    assert (Hr := Z.mod_pos_bound (t - 1) c Hc).
    assert (Hq0 : 0 <= (t - 1) / c) by (apply Z.div_pos; lia).
    set (q := (t - 1) / c) in *.
    replace (Z.to_nat (q + 1)) with (S (Z.to_nat q)) by lia.
    split; [|right; simpl pred]; nia.
  - split; [|now left]. simpl. lia.
Qed.

(** ** The two streaming loops *)

Lemma slice_loop_eq data c idx : forall d,
  slice_loop data c idx d
  = (flat_map (pass (keys d))
              (map (fun i => py_slice (Some i) (Some (i + c)) data) idx),
     Return
       (feed (concat (map (fun i => py_slice (Some i) (Some (i + c)) data)
                          idx)) d)).
Proof.
  induction idx as [|i idx IH]; intros d.
  - simpl. now rewrite feed_nil.
  - cbn [slice_loop map flat_map concat].
    rewrite update_all_eq, bind_Return, bind_emit, IH, keys_feed, feed_app.
    cbn [fst snd]. unfold pass at 2. now rewrite <- app_assoc.
Qed.

Lemma windows_chunks (data : bytes) c :
  0 < c ->
  map (fun i => py_slice (Some i) (Some (i + c)) data)
      (map (fun k => Z.of_nat k * c) (seq 0 (chunk_count (len data) c)))
  = chunks (Z.to_nat c) data.
Proof.
  intros Hc. destruct (chunk_count_bounds data c Hc) as [Hle Hgt].
  rewrite <- (chop_chunks _ (chunk_count (len data) c)) by (assumption || lia).
  rewrite <- windows_chop by (assumption || lia).
  rewrite map_map. apply map_ext_in. intros k Hk. apply in_seq in Hk.
  rewrite py_slice_window.
  - do 2 f_equal. rewrite Z2Nat.inj_mul, Nat2Z.id; lia.
  - unfold len. destruct Hgt as [Hgt|Hgt]; [lia|].
    assert ((k * Z.to_nat c <= pred (chunk_count (len data) c) * Z.to_nat c)%nat)
      by (apply Nat.mul_le_mono_r; lia).
    nia.
  - lia.
Qed.

(** With a positive chunk size the text loop feeds the chunks of the data,
    one pass each. *)
Lemma stream_text_positive data c d :
  0 < c ->
  stream_text data c d
  = (flat_map (pass (keys d)) (chunks (Z.to_nat c) data),
     Return (feed data d)).
Proof.
  intros Hc. unfold stream_text.
  rewrite py_range_chunks, bind_ret, slice_loop_eq by assumption.
  rewrite windows_chunks by assumption.
  unfold chunks. rewrite chop_concat by lia. reflexivity.
Qed.

Lemma stream_text_zero data d :
  stream_text data 0 d
  = raise (ValueError (str "range() arg 3 must not be zero")).
Proof. reflexivity. Qed.

Lemma stream_text_negative data c d :
  c < 0 -> stream_text data c d = ret d.
Proof.
  intros Hc. unfold stream_text, len.
  rewrite py_range_negative by lia. now rewrite bind_ret.
Qed.

Lemma fits_ssize_true n :
  fits_ssize n = true <-> - sys_maxsize - 1 <= n <= sys_maxsize.
Proof. unfold fits_ssize. rewrite andb_true_iff, !Z.leb_le. tauto. Qed.

Lemma fits_ssize_false n :
  fits_ssize n = false <-> n < - sys_maxsize - 1 \/ sys_maxsize < n.
Proof.
  unfold fits_ssize. rewrite andb_false_iff, !Z.leb_gt. tauto.
Qed.

Lemma file_read_overflow size f :
  fits_ssize size = false -> file_read size f = raise OverflowError.
Proof. unfold file_read. now intros ->. Qed.

Lemma file_read_nonneg size f :
  0 <= size <= sys_maxsize ->
  file_read size f
  = ([EvRead size (firstn (Z.to_nat size) f)],
     Return (firstn (Z.to_nat size) f, skipn (Z.to_nat size) f)).
Proof.
  intros H. unfold file_read.
  replace (fits_ssize size) with true
    by (symmetry; apply fits_ssize_true; unfold sys_maxsize in *; lia).
  cbn [negb].
  destruct (Z.ltb_spec size (-1)); [lia|].
  destruct (Z.eqb_spec size (-1)); [lia|].
  now rewrite bind_emit.
Qed.

Lemma read_loop_eq c : 0 < c <= sys_maxsize ->
  forall fuel f d, (length f < fuel)%nat ->
    read_loop fuel c f d
    = (flat_map (fun chunk => EvRead c chunk :: pass (keys d) chunk)
                (chop fuel (Z.to_nat c) f) ++ [EvRead c []],
       Return (feed (concat (chop fuel (Z.to_nat c) f)) d)).
Proof.
  intros Hc. induction fuel as [|fuel IH]; intros f d Hlen; [lia|].
  cbn [read_loop]. rewrite file_read_nonneg, bind_Return by lia.
  cbn [fst snd].
  destruct f as [|b f].
  - rewrite chop_nil, firstn_nil. cbn. now rewrite feed_nil.
  - rewrite chop_cons by (lia || discriminate).
    destruct (firstn (Z.to_nat c) (b :: f)) as [|b' chunk] eqn:E.
    { apply firstn_empty in E. destruct E; [lia | discriminate]. }
    rewrite update_all_eq, bind_Return, bind_emit, IH, keys_feed, feed_app
      by (rewrite length_skipn; cbn [length] in *; lia).
    cbn [fst snd flat_map concat]. unfold pass at 2.
    f_equal. cbn [app]. f_equal. now rewrite <- !app_assoc.
Qed.

Lemma stream_file_positive c f d :
  0 < c <= sys_maxsize ->
  stream_file c f d
  = (flat_map (fun chunk => EvRead c chunk :: pass (keys d) chunk)
              (chunks (Z.to_nat c) f) ++ [EvRead c []],
     Return (feed f d)).
Proof.
  intros Hc. unfold stream_file. rewrite read_loop_eq by (assumption || lia).
  rewrite chop_chunks by nia.
  unfold chunks. rewrite chop_concat by lia. reflexivity.
Qed.

Lemma stream_file_zero f d :
  stream_file 0 f d = ([EvRead 0 []], Return d).
Proof. reflexivity. Qed.

(** ** Validation *)

Lemma validate_supported l :
  supported l -> _validate_hash_algorithms l = ret l.
Proof.
  induction 1 as [|i l Hi _ IH]; [reflexivity|].
  cbn [_validate_hash_algorithms].
  apply py_in_In in Hi. rewrite Hi, IH. now rewrite bind_ret.
Qed.

Lemma validate_unsupported l bad :
  first_unsupported l = Some bad ->
  _validate_hash_algorithms l
  = raise (ValueError (str "Unsupported hash_algorithm: " ++ bad)).
Proof.
  unfold first_unsupported.
  induction l as [|i l IH]; [discriminate|].
  cbn [find _validate_hash_algorithms].
  destruct (py_in i support_hash_algorithms); cbn [negb].
  - intros H. now rewrite IH.
  - now intros [= ->].
Qed.

Lemma first_unsupported_None l :
  first_unsupported l = None <-> supported l.
Proof.
  unfold first_unsupported, supported. rewrite Forall_forall. split.
  - intros H i Hi. apply py_in_In.
    pose proof (find_none _ _ H i Hi) as E. now apply negb_false_iff in E.
  - intros H. destruct (find _ l) as [i|] eqn:E; [|reflexivity].
    apply find_some in E. destruct E as [Hi E].
    apply H, py_in_In in Hi. rewrite Hi in E. discriminate.
Qed.


Lemma supported_construct i :
  In i support_hash_algorithms ->
  exists a, getattr_hashlib i = Some a /\ construct i = hashlib.new a.
Proof.
  unfold construct.
  intros [<-|[<-|[<-|[<-|[]]]]]; eexists; split; reflexivity.
Qed.

(** ** Dictionaries and first occurrences *)

Lemma dict_set_absent {V} k (v : V) d :
  ~ In k (keys d) -> dict_set k v d = d ++ [(k, v)].
Proof.
  induction d as [|[k' v'] d IH]; intros H; [reflexivity|].
  cbn [dict_set]. destruct (pystr_eqb k k') eqn:E.
  - apply pystr_eqb_eq in E. subst. exfalso. apply H. now left.
  - cbn [app]. rewrite IH; [reflexivity|]. intros Hin. apply H. now right.
Qed.

Lemma dict_set_same {V} k (v : V) d :
  (forall x, In (k, x) d -> x = v) -> In k (keys d) -> dict_set k v d = d.
Proof.
  induction d as [|[k' v'] d IH]; intros Hv Hin; [destruct Hin|].
  cbn [dict_set]. destruct (pystr_eqb k k') eqn:E.
  - apply pystr_eqb_eq in E. subst. f_equal. f_equal. symmetry.
    apply Hv. now left.
  - f_equal. apply IH.
    + intros x Hx. apply Hv. now right.
    + destruct Hin as [Hin|Hin]; [|assumption].
      cbn in Hin. subst. now rewrite pystr_eqb_refl in E.
Qed.

Lemma first_occurrences_In l k : In k (first_occurrences l) <-> In k l.
Proof.
  induction l as [|x l IH]; [reflexivity|].
  cbn [first_occurrences In]. rewrite filter_In, IH, negb_true_iff.
  rewrite pystr_eqb_neq. split.
  - intros [H|[H _]]; auto.
  - intros [H|H]; [now left|].
    destruct (list_eq_dec Z.eq_dec x k); [now left | right; split; congruence].
Qed.

Lemma NoDup_filter {A} (f : A -> bool) l : NoDup l -> NoDup (filter f l).
Proof.
  induction 1 as [|x l Hx _ IH]; [constructor|].
  cbn [filter]. destruct (f x); [|assumption].
  constructor; [|assumption]. rewrite filter_In. tauto.
Qed.

Lemma first_occurrences_NoDup l : NoDup (first_occurrences l).
Proof.
  induction l as [|x l IH]; [constructor|].
  cbn [first_occurrences]. constructor.
  - rewrite filter_In, negb_true_iff, pystr_eqb_neq. tauto.
  - now apply NoDup_filter.
Qed.

Lemma first_occurrences_NoDup_id l : NoDup l -> first_occurrences l = l.
Proof.
  induction 1 as [|x l Hx _ IH]; [reflexivity|].
  cbn [first_occurrences]. rewrite IH. f_equal.
  apply forallb_filter_id. apply forallb_forall. intros y Hy.
  apply negb_true_iff, pystr_eqb_neq. congruence.
Qed.

Lemma filter_twice {A} (f g : A -> bool) l :
  filter f (filter g l) = filter (fun x => f x && g x) l.
Proof.
  induction l as [|x l IH]; [reflexivity|].
  cbn [filter]. destruct (g x), (f x) eqn:E; cbn [filter andb];
    rewrite ?E, IH; reflexivity.
Qed.

Lemma keys_app {V} (d d' : dict V) : keys (d ++ d') = keys d ++ keys d'.
Proof. apply map_app. Qed.

(** Inserting the keys of [l] one after the other, each with the value
    that belongs to it, appends the new keys at their first occurrence. *)
Lemma dict_build {V} (v : pystr -> V) l : forall d,
  (forall k x, In (k, x) d -> x = v k) ->
  fold_left (fun d i => dict_set i (v i) d) l d
  = d ++ map (fun i => (i, v i))
           (filter (fun i => negb (py_in i (keys d))) (first_occurrences l)).
Proof.
  induction l as [|i l IH]; intros d Hd.
  - cbn. now rewrite app_nil_r.
  - cbn [fold_left first_occurrences filter].
    destruct (py_in i (keys d)) eqn:E; cbn [negb].
    + rewrite dict_set_same
        by (try (now apply py_in_In); intros; now apply Hd).
      rewrite IH by assumption. do 2 f_equal.
      rewrite filter_twice. apply filter_ext. intros y.
      destruct (pystr_eqb y i) eqn:Eq; cbn [negb]; [|now rewrite andb_true_r].
      apply pystr_eqb_eq in Eq. subst. now rewrite E.
    + assert (Hnot : ~ In i (keys d)).
      { intros H. apply py_in_In in H. congruence. }
      rewrite dict_set_absent by assumption.
      rewrite IH.
      * rewrite <- app_assoc. cbn [app map]. do 3 f_equal.
        rewrite filter_twice. apply filter_ext. intros y.
        rewrite keys_app. unfold py_in. rewrite existsb_app. cbn [keys map fst existsb].
        now rewrite orb_false_r, negb_orb.
      * intros k x Hin. apply in_app_or in Hin.
        destruct Hin as [Hin|[[= <- <-]|[]]]; [now apply Hd | reflexivity].
Qed.

Lemma hexdigests_eq d :
  NoDup (keys d) ->
  hexdigests d = map (fun ih => (fst ih, hashlib.hexdigest (snd ih))) d.
Proof.
  unfold hexdigests. intros Hnd.
  enough (G : forall acc,
             (forall k, In k (keys acc) -> ~ In k (keys d)) ->
             fold_left
               (fun a ih => dict_set (fst ih) (hashlib.hexdigest (snd ih)) a)
               d acc
             = acc ++ map (fun ih => (fst ih, hashlib.hexdigest (snd ih))) d)
    by (apply (G []); intros k []).
  induction d as [|[k h] d IH]; intros acc Hacc.
  - cbn. now rewrite app_nil_r.
  - cbn [fold_left fst snd map]. inversion Hnd as [|? ? Hk Hd]; subst.
    rewrite dict_set_absent.
    + rewrite IH; [now rewrite <- app_assoc | assumption |].
      intros k' Hin. rewrite keys_app in Hin. apply in_app_or in Hin.
      destruct Hin as [Hin|[<-|[]]]; [|assumption].
      intros Hd'. apply (Hacc k' Hin). now right.
    + intros Hin. apply (Hacc k Hin). now left.
Qed.

(** ** The dictionary of hash objects *)

Lemma make_hashers_eq l : supported l ->
  forall d,
    make_hashers l d
    = (map EvNew l,
       Return (fold_left (fun d i => dict_set i (construct i) d) l d)).
Proof.
  induction 1 as [|i l Hi _ IH]; intros d; [reflexivity|].
  cbn [make_hashers fold_left map].
  destruct (supported_construct i Hi) as (a & -> & ->).
  now rewrite bind_emit, IH.
Qed.

Lemma make_hashers_fresh l :
  supported l ->
  make_hashers l [] = (map EvNew l, Return (fresh_hashers l)).
Proof.
  intros H. rewrite make_hashers_eq by assumption.
  rewrite dict_build by (intros k x []).
  cbn [app keys map]. unfold fresh_hashers. do 3 f_equal.
  apply forallb_filter_id. apply forallb_forall. now intros.
Qed.

Lemma keys_fresh l : keys (fresh_hashers l) = first_occurrences l.
Proof.
  unfold keys, fresh_hashers. rewrite map_map. apply map_id.
Qed.

(** The digests of the hash objects once each has been fed [data]. *)
Lemma hexdigests_feed l data :
  hexdigests (feed data (fresh_hashers l)) = digests l data.
Proof.
  rewrite hexdigests_eq
    by (rewrite keys_feed, keys_fresh; apply first_occurrences_NoDup).
  unfold feed, fresh_hashers, digests. now rewrite !map_map.
Qed.

(** ** Encoding *)

Lemma encode_from_cases text : forall pos,
  (exists data, encode_from pos text = ret data)
  \/ (exists p, encode_from pos text = raise (UnicodeEncodeError p)).
Proof.
  induction text as [|c text IH]; intros pos; [left; now exists []|].
  cbn [encode_from]. destruct (utf8_char c) as [bs|].
  - destruct (IH (S pos)) as [[data ->]|[p ->]].
    + left. exists (bs ++ data). now rewrite bind_ret.
    + right. now exists p.
  - right. now exists pos.
Qed.

Lemma encode_utf8_cases text :
  (exists data, encode_utf8 text = ret data)
  \/ (exists p, encode_utf8 text = raise (UnicodeEncodeError p)).
Proof. apply encode_from_cases. Qed.

(** ** The two entry points in closed form *)

Lemma isfile_regular fs path :
  os_path_isfile fs path = true <->
  exists content, fs path = Some (RegularFile content).
Proof.
  unfold os_path_isfile. destruct (fs path) as [[content|n]|]; split;
    try discriminate; try (intros [x [=]]); eauto.
Qed.

Lemma hash_file_missing fs path algs mb :
  os_path_isfile fs path = false ->
  hash_file fs path algs mb
  = raise (FileNotFoundError (str "Not found file_path: " ++ path)).
Proof. unfold hash_file. now intros ->. Qed.

Lemma hash_file_unsupported fs path content algs mb bad :
  fs path = Some (RegularFile content) ->
  first_unsupported (requested algs) = Some bad ->
  hash_file fs path algs mb
  = raise (ValueError (str "Unsupported hash_algorithm: " ++ bad)).
Proof.
  intros Hf Hbad. unfold hash_file, os_path_isfile, os_path_getsize.
  rewrite Hf. cbn [negb]. rewrite bind_ret.
  fold (requested algs). now rewrite (validate_unsupported _ bad).
Qed.

Lemma hash_file_stream fs path content algs mb :
  fs path = Some (RegularFile content) ->
  supported (requested algs) ->
  hash_file fs path algs mb
  = (map EvNew (requested algs)
       ++ EvOpen path
       :: EvBar (len content) (describe (requested algs) path)
       :: fst (stream_file (mb * 1024 * 1024) content
                           (fresh_hashers (requested algs))),
     match snd (stream_file (mb * 1024 * 1024) content
                            (fresh_hashers (requested algs))) with
     | Return hashers => Return (hexdigests hashers)
     | Raise e => Raise e
     | OutOfFuel => OutOfFuel
     end).
Proof.
  intros Hf Hs. unfold hash_file, os_path_isfile, os_path_getsize, open_rb.
  rewrite Hf. cbn [negb]. rewrite bind_ret. fold (requested algs).
  rewrite validate_supported, bind_ret by assumption.
  rewrite make_hashers_fresh, bind_Return by assumption.
  rewrite bind_emit. cbn [fst snd ret]. rewrite bind_Return, bind_emit.
  cbn [fst snd app].
  destruct (stream_file _ _ _) as [t [hashers|e|]]; unfold bind, ret;
    cbn [fst snd]; rewrite ?app_nil_r; reflexivity.
Qed.

Lemma hash_file_positive fs path content algs mb :
  fs path = Some (RegularFile content) ->
  supported (requested algs) ->
  0 < mb ->
  mb * 1024 * 1024 <= sys_maxsize ->
  hash_file fs path algs mb
  = (map EvNew (requested algs)
       ++ EvOpen path
       :: EvBar (len content) (describe (requested algs) path)
       :: flat_map (fun chunk =>
                      EvRead (mb * 1024 * 1024) chunk
                      :: pass (first_occurrences (requested algs)) chunk)
                   (chunks (Z.to_nat (mb * 1024 * 1024)) content)
       ++ [EvRead (mb * 1024 * 1024) []],
     Return (digests (requested algs) content)).
Proof.
  intros Hf Hs Hmb Hfit. rewrite (hash_file_stream _ _ content) by assumption.
  rewrite stream_file_positive by lia.
  cbn [fst snd]. now rewrite keys_fresh, hexdigests_feed.
Qed.

Lemma hash_file_zero fs path content algs :
  fs path = Some (RegularFile content) ->
  supported (requested algs) ->
  hash_file fs path algs 0
  = (map EvNew (requested algs)
       ++ [EvOpen path;
           EvBar (len content) (describe (requested algs) path);
           EvRead 0 []],
     Return (digests (requested algs) [])).
Proof.
  intros Hf Hs. rewrite (hash_file_stream _ _ content) by assumption.
  change (0 * 1024 * 1024) with 0. rewrite stream_file_zero.
  cbn [fst snd]. rewrite <- (feed_nil (fresh_hashers _)).
  now rewrite hexdigests_feed.
Qed.

Lemma hash_text_unencodable text algs mb p :
  encode_utf8 text = raise (UnicodeEncodeError p) ->
  hash_text text algs mb = raise (UnicodeEncodeError p).
Proof. unfold hash_text. now intros ->. Qed.

Lemma hash_text_unsupported text data algs mb bad :
  encode_utf8 text = ret data ->
  first_unsupported (requested algs) = Some bad ->
  hash_text text algs mb
  = raise (ValueError (str "Unsupported hash_algorithm: " ++ bad)).
Proof.
  intros He Hbad. unfold hash_text. rewrite He, bind_ret.
  fold (requested algs). now rewrite (validate_unsupported _ bad).
Qed.

Lemma hash_text_stream text data algs mb :
  encode_utf8 text = ret data ->
  supported (requested algs) ->
  hash_text text algs mb
  = (map EvNew (requested algs)
       ++ EvBar (len data) (describe (requested algs) text)
       :: fst (stream_text data (mb * 1024 * 1024)
                           (fresh_hashers (requested algs))),
     match snd (stream_text data (mb * 1024 * 1024)
                            (fresh_hashers (requested algs))) with
     | Return hashers => Return (hexdigests hashers)
     | Raise e => Raise e
     | OutOfFuel => OutOfFuel
     end).
Proof.
  intros He Hs. unfold hash_text. rewrite He, bind_ret.
  fold (requested algs).
  rewrite validate_supported, bind_ret by assumption.
  rewrite make_hashers_fresh, bind_Return by assumption.
  rewrite bind_emit. cbn [fst snd].
  destruct (stream_text _ _ _) as [t [hashers|e|]]; unfold bind, ret;
    cbn [fst snd]; rewrite ?app_nil_r; reflexivity.
Qed.

Lemma hash_text_positive text data algs mb :
  encode_utf8 text = ret data ->
  supported (requested algs) ->
  0 < mb ->
  hash_text text algs mb
  = (map EvNew (requested algs)
       ++ EvBar (len data) (describe (requested algs) text)
       :: flat_map (pass (first_occurrences (requested algs)))
                   (chunks (Z.to_nat (mb * 1024 * 1024)) data),
     Return (digests (requested algs) data)).
Proof.
  intros He Hs Hmb. rewrite (hash_text_stream _ data) by assumption.
  rewrite stream_text_positive by lia.
  cbn [fst snd]. now rewrite keys_fresh, hexdigests_feed.
Qed.

Lemma hash_text_zero text data algs :
  encode_utf8 text = ret data ->
  supported (requested algs) ->
  hash_text text algs 0
  = (map EvNew (requested algs)
       ++ [EvBar (len data) (describe (requested algs) text)],
     Raise (ValueError (str "range() arg 3 must not be zero"))).
Proof.
  intros He Hs. rewrite (hash_text_stream _ data) by assumption.
  change (0 * 1024 * 1024) with 0. now rewrite stream_text_zero.
Qed.

Lemma hash_text_negative text data algs mb :
  encode_utf8 text = ret data ->
  supported (requested algs) ->
  mb < 0 ->
  hash_text text algs mb
  = (map EvNew (requested algs)
       ++ [EvBar (len data) (describe (requested algs) text)],
     Return (digests (requested algs) [])).
Proof.
  intros He Hs Hmb. rewrite (hash_text_stream _ data) by assumption.
  rewrite stream_text_negative by lia.
  cbn [fst snd ret]. rewrite <- (feed_nil (fresh_hashers _)).
  now rewrite hexdigests_feed.
Qed.

Lemma stream_file_negative c f d :
  - sys_maxsize - 1 <= c < -1 ->
  stream_file c f d
  = raise (ValueError (str "read length must be non-negative or -1")).
Proof.
  intros Hc. unfold stream_file. cbn [read_loop]. unfold file_read.
  replace (fits_ssize c) with true
    by (symmetry; apply fits_ssize_true; unfold sys_maxsize in *; lia).
  cbn [negb]. destruct (Z.ltb_spec c (-1)); [reflexivity | lia].
Qed.

Lemma stream_file_overflow c f d :
  fits_ssize c = false -> stream_file c f d = raise OverflowError.
Proof.
  intros Hc. unfold stream_file. cbn [read_loop].
  now rewrite file_read_overflow.
Qed.

Lemma hash_file_negative fs path content algs mb :
  fs path = Some (RegularFile content) ->
  supported (requested algs) ->
  mb < 0 ->
  - sys_maxsize - 1 <= mb * 1024 * 1024 ->
  result (hash_file fs path algs mb)
  = Raise (ValueError (str "read length must be non-negative or -1")).
Proof.
  intros Hf Hs Hmb Hfit. rewrite (hash_file_stream _ _ content) by assumption.
  now rewrite stream_file_negative by lia.
Qed.

(** A chunk size that does not fit a machine word stops [hash_file] at its
    first read, once the hash objects are made and the file is open. *)
Lemma hash_file_overflow fs path content algs mb :
  fs path = Some (RegularFile content) ->
  supported (requested algs) ->
  fits_ssize (mb * 1024 * 1024) = false ->
  hash_file fs path algs mb
  = (map EvNew (requested algs)
       ++ [EvOpen path; EvBar (len content) (describe (requested algs) path)],
     Raise OverflowError).
Proof.
  intros Hf Hs Hfit. rewrite (hash_file_stream _ _ content) by assumption.
  now rewrite stream_file_overflow.
Qed.

(** How [hash_file] ends on an existing file under a supported request:
    the request matters to the digests only. *)
Lemma hash_file_result fs path content algs mb :
  fs path = Some (RegularFile content) ->
  supported (requested algs) ->
  result (hash_file fs path algs mb)
  = if negb (fits_ssize (mb * 1024 * 1024)) then Raise OverflowError
    else if mb <? 0
    then Raise (ValueError (str "read length must be non-negative or -1"))
    else Return (digests (requested algs)
                         (if mb =? 0 then [] else content)).
Proof.
  intros Hf Hs. destruct (fits_ssize (mb * 1024 * 1024)) eqn:Hfit; cbn [negb].
  - apply fits_ssize_true in Hfit.
    destruct (Z.ltb_spec mb 0).
    + now apply (hash_file_negative _ _ content).
    + destruct (Z.eqb_spec mb 0) as [->|Hnz].
      * now rewrite (hash_file_zero _ _ content).
      * now rewrite (hash_file_positive _ _ content) by (assumption || lia).
  - now rewrite (hash_file_overflow _ _ content).
Qed.

(** ** Reading a trace *)

Lemma fed_app key t1 t2 : fed key (t1 ++ t2) = fed key t1 ++ fed key t2.
Proof.
  induction t1 as [|e t1 IH]; [reflexivity|].
  destruct e; cbn [app fed]; try assumption.
  destruct (pystr_eqb key0 key); cbn [app]; now rewrite IH.
Qed.

Lemma fed_updates_absent key ks chunk :
  ~ In key ks -> fed key (map (fun k => EvUpdate k chunk) ks) = [].
Proof.
  induction ks as [|k ks IH]; intros H; [reflexivity|].
  cbn [map fed]. destruct (pystr_eqb k key) eqn:E.
  - apply pystr_eqb_eq in E. subst. exfalso. apply H. now left.
  - apply IH. intros Hin. apply H. now right.
Qed.

Lemma fed_pass key ks chunk :
  NoDup ks -> In key ks -> fed key (pass ks chunk) = [chunk].
Proof.
  unfold pass. rewrite fed_app. cbn [fed]. rewrite app_nil_r.
  induction 1 as [|k ks Hk Hnd IH]; intros Hin; [destruct Hin|].
  cbn [map fed]. destruct (pystr_eqb k key) eqn:E.
  - apply pystr_eqb_eq in E. subst.
    now rewrite fed_updates_absent.
  - apply IH. destruct Hin as [->|Hin]; [|assumption].
    now rewrite pystr_eqb_refl in E.
Qed.

Lemma fed_passes key ks cs :
  NoDup ks -> In key ks -> fed key (flat_map (pass ks) cs) = cs.
Proof.
  intros Hnd Hin. induction cs as [|c cs IH]; [reflexivity|].
  cbn [flat_map]. now rewrite fed_app, fed_pass, IH.
Qed.

Lemma fed_read_passes key ks size cs :
  NoDup ks -> In key ks ->
  fed key (flat_map (fun chunk => EvRead size chunk :: pass ks chunk) cs)
  = cs.
Proof.
  intros Hnd Hin. induction cs as [|c cs IH]; [reflexivity|].
  cbn [flat_map app fed]. now rewrite fed_app, fed_pass, IH.
Qed.

Lemma fed_news key l : fed key (map EvNew l) = [].
Proof. induction l; [reflexivity | assumption]. Qed.

Lemma reads_app t1 t2 : reads (t1 ++ t2) = reads t1 ++ reads t2.
Proof.
  induction t1 as [|e t1 IH]; [reflexivity|].
  destruct e; cbn [app reads]; try assumption. now rewrite IH.
Qed.

Lemma reads_news l : reads (map EvNew l) = [].
Proof. induction l; [reflexivity | assumption]. Qed.

(** ** Looking up a digest *)

Lemma dict_get_map {V} (v : pystr -> V) l i :
  In i l -> dict_get i (map (fun k => (k, v k)) l) = Some (v i).
Proof.
  induction l as [|k l IH]; intros Hin; [destruct Hin|].
  cbn [map dict_get]. destruct (pystr_eqb i k) eqn:E.
  - apply pystr_eqb_eq in E. now subst.
  - apply IH. destruct Hin as [->|Hin]; [|assumption].
    now rewrite pystr_eqb_refl in E.
Qed.

Lemma dict_get_digests l data i :
  In i l ->
  dict_get i (digests l data)
  = Some (hashlib.hexdigest (hashlib.update (construct i) data)).
Proof.
  intros Hin. unfold digests.
  apply (dict_get_map
           (fun k => hashlib.hexdigest (hashlib.update (construct k) data))).
  now apply first_occurrences_In.
Qed.

Lemma keys_digests l data : keys (digests l data) = first_occurrences l.
Proof. unfold keys, digests. rewrite map_map. apply map_id. Qed.

(** The four algorithms give the published digests on no input. *)
Lemma construct_empty i :
  In i support_hash_algorithms ->
  Some (hashlib.hexdigest (hashlib.update (construct i) [])) = empty_digest i.
Proof.
  intros [<-|[<-|[<-|[<-|[]]]]]; vm_compute; reflexivity.
Qed.

Lemma dict_get_digests_empty l i :
  supported l -> In i l -> dict_get i (digests l []) = empty_digest i.
Proof.
  intros Hs Hin. rewrite dict_get_digests by assumption.
  apply construct_empty. unfold supported in Hs.
  rewrite Forall_forall in Hs. now apply Hs.
Qed.

(** * The properties of the specification *)







(** C4, validation short-circuit (amended): when the requested list holds
    an unsupported identifier, [hash_file] on an existing file, and
    [hash_text] on a text that has a UTF-8 encoding, raise the
    [ValueError] that names the first unsupported identifier of the list,
    and cause no event at all: no hash object is made or fed, no file is
    opened or read. *)
Theorem validation_short_circuit (l : list pystr) (bad : pystr) :
  first_unsupported l = Some bad ->
  (forall fs path content mb,
      fs path = Some (RegularFile content) ->
      hash_file fs path (Some l) mb
      = ([], Raise (ValueError (str "Unsupported hash_algorithm: " ++ bad))))
  /\ (forall text data mb,
        encode_utf8 text = ret data ->
        hash_text text (Some l) mb
        = ([], Raise (ValueError (str "Unsupported hash_algorithm: " ++ bad)))).
Proof.
  intros Hbad. split.
  - intros fs path content mb Hf.
    now rewrite (hash_file_unsupported _ _ content _ _ bad).
  - intros text data mb He.
    now rewrite (hash_text_unsupported _ data _ _ bad).
Qed.

(** C4 as it is stated fails for [hash_text]: on a text that holds a lone
    surrogate the encoding, which comes first, raises
    [UnicodeEncodeError] and the request is never looked at. *)
Lemma validation_short_circuit_counterexample :
  first_unsupported [str "sha256"; str "bogus"; str "md5"]
  = Some (str "bogus")
  /\ hash_text [0xD800] (Some [str "sha256"; str "bogus"; str "md5"]) 8
     = ([], Raise (UnicodeEncodeError 0))
  /\ result (hash_text [0xD800]
                       (Some [str "sha256"; str "bogus"; str "md5"]) 8)
     <> Raise (ValueError (str "Unsupported hash_algorithm: bogus")).
Proof.
  repeat split. vm_compute. discriminate.
Qed.





(** C8, input not found: when [path] is not an existing regular file,
    [hash_file] raises [FileNotFoundError] with a message that names the
    path, returns nothing, and causes no event: no hash object is made and
    nothing is opened or read. *)
Theorem input_not_found (fs : filesystem) (path : pystr)
    (algs : option (list pystr)) (mb : Z) :
  (forall content, fs path <> Some (RegularFile content)) ->
  hash_file fs path algs mb
  = ([], Raise (FileNotFoundError (str "Not found file_path: " ++ path))).
Proof.
  intros H. apply hash_file_missing.
  destruct (os_path_isfile fs path) eqn:E; [|reflexivity].
  apply isfile_regular in E. destruct E as [content E].
  now apply H in E.
Qed.

(** C9, chunk size zero: with [chunk_size_mb = 0] and a supported request,
    [hash_file] on an existing file returns, whatever the file holds, the
    dictionary that gives every requested algorithm its empty-input
    digest; its only read asks for no bytes and gets none, and no hash
    object is fed.  [hash_text] with the same chunk size raises on every
    text. *)
Theorem zero_chunk_size (fs : filesystem) (path : pystr) (content : bytes)
    (algs : option (list pystr)) :
  fs path = Some (RegularFile content) ->
  supported (requested algs) ->
  (exists d,
      result (hash_file fs path algs 0) = Return d
      /\ keys d = first_occurrences (requested algs)
      /\ forall i, In i (requested algs) -> dict_get i d = empty_digest i)
  /\ reads (events (hash_file fs path algs 0)) = [[]]
  /\ (forall i, fed i (events (hash_file fs path algs 0)) = [])
  /\ (forall text, text <> [] ->
        exists e, result (hash_text text algs 0) = Raise e).
Proof.
  intros Hf Hs. rewrite (hash_file_zero _ _ content) by assumption.
  cbn [result events fst snd]. repeat split.
  - exists (digests (requested algs) []). repeat split.
    + apply keys_digests.
    + intros i Hi. now apply dict_get_digests_empty.
  - now rewrite reads_app, reads_news.
  - intros i. now rewrite fed_app, fed_news.
  - intros text _.
    destruct (encode_utf8_cases text) as [[data He]|[p He]].
    + rewrite (hash_text_zero _ data) by assumption. now eexists.
    + rewrite (hash_text_unencodable _ _ _ p) by assumption. now eexists.
Qed.

(** ** Display truncation *)

Lemma py_slice_prefix {A} (l : list A) k :
  0 <= k <= len l -> py_slice None (Some k) l = firstn (Z.to_nat k) l.
Proof.
  unfold len. intros Hk. unfold py_slice, slice_index.
  destruct (Z.ltb_spec k 0); [lia|].
  rewrite Z.min_l, Z.sub_0_r by lia. reflexivity.
Qed.

Lemma py_slice_suffix {A} (l : list A) k :
  0 < k <= len l ->
  py_slice (Some (- k)) None l = skipn (length l - Z.to_nat k) l.
Proof.
  unfold len. intros Hk. unfold py_slice, slice_index.
  destruct (Z.ltb_spec (- k) 0); [|lia].
  rewrite Z.max_l by lia.
  replace (Z.to_nat (- k + Z.of_nat (length l)))
    with (length l - Z.to_nat k)%nat by lia.
  apply firstn_all2. rewrite length_skipn. lia.
Qed.

(** C10, display truncation (amended): [_shorten_middle_text] returns the
    text unchanged when it has at most [m] characters; when it has more
    and [m] is at least 5, it returns a prefix and a suffix of the text of
    the same length joined by three dots, of at most [m] characters in
    all. *)
Theorem display_truncation (text : pystr) (m : Z) :
  (len text <= m -> _shorten_middle_text text m = text)
  /\ (5 <= m -> m < len text ->
      middle_truncated text m (_shorten_middle_text text m)).
Proof.
  unfold _shorten_middle_text. split.
  - intros H. destruct (Z.leb_spec (len text) m); [reflexivity | lia].
  - intros H5 Hlt. destruct (Z.leb_spec (len text) m); [lia|].
    assert (Hp : 1 <= (m - 3) / 2) by (apply Z.div_le_lower_bound; lia).
    assert (Hq : 2 * ((m - 3) / 2) <= m - 3)
      by (apply Z.mul_div_le; lia).
    set (part := (m - 3) / 2) in *.
    unfold len in *.
    rewrite py_slice_prefix, py_slice_suffix by (unfold len; lia).
    exists (Z.to_nat part). repeat split.
    + lia.
    + unfold len. rewrite !length_app, length_firstn, length_skipn.
      change (length (str "...")) with 3%nat. lia.
Qed.

(** C10 as it is stated fails: with [m = 2] the three letters [abc] come
    back as the seven characters [ab...bc]. *)
Lemma display_truncation_counterexample :
  len (str "abc") > 2
  /\ _shorten_middle_text (str "abc") 2 = str "ab...bc"
  /\ ~ middle_truncated (str "abc") 2 (_shorten_middle_text (str "abc") 2).
Proof.
  repeat split.
  intros (k & _ & _ & H). vm_compute in H. now apply H.
Qed.

(** With [m = 4] the suffix [text[-0:]] is the whole text. *)
Example shorten_part_zero :
  _shorten_middle_text (str "abcde") 4 = str "...abcde".
Proof. reflexivity. Qed.

(** ** Termination *)

Lemma file_read_all f :
  file_read (-1) f = ([EvRead (-1) f], Return (f, [])).
Proof.
  unfold file_read. cbn [Z.ltb Z.eqb Z.compare Pos.eqb Pos.compare
                         Pos.compare_cont CompOpp].
  now rewrite bind_emit, firstn_all, skipn_all.
Qed.

Lemma read_loop_S fuel c f d :
  read_loop (S fuel) c f d
  = (r <- file_read c f ;;
     match fst r with
     | [] => ret d
     | _ =>
         hashers' <- update_all (fst r) d ;;
         emit (EvTick (len (fst r))) ;;
         read_loop fuel c (snd r) hashers'
     end).
Proof.
  cbn [read_loop].
  destruct (file_read c f) as [t [[chunk f']|e|]]; reflexivity.
Qed.

(** The fuel that [stream_file] gives its loop is never used up. *)
Lemma stream_file_terminates size f d :
  result (stream_file size f d) <> OutOfFuel.
Proof.
  destruct (fits_ssize size) eqn:Hfit;
    [|now rewrite stream_file_overflow].
  apply fits_ssize_true in Hfit.
  destruct (Z.lt_trichotomy size 0) as [Hneg|[->|Hpos]].
  - destruct (Z.eq_dec size (-1)) as [->|Hn].
    + unfold stream_file. destruct f as [|b f]; [discriminate|].
      cbn [length].
      rewrite read_loop_S, file_read_all, bind_Return. cbn [fst snd].
      rewrite update_all_eq, bind_Return, bind_emit. cbn [fst snd].
      rewrite read_loop_S, file_read_all, bind_Return. cbn [fst snd].
      discriminate.
    + rewrite stream_file_negative by lia. discriminate.
  - rewrite stream_file_zero. discriminate.
  - rewrite stream_file_positive by lia. discriminate.
Qed.

Lemma hash_text_terminates text algs mb :
  result (hash_text text algs mb) <> OutOfFuel.
Proof.
  destruct (encode_utf8_cases text) as [[data He]|[p He]].
  - destruct (first_unsupported (requested algs)) as [bad|] eqn:Eu.
    + now rewrite (hash_text_unsupported _ data _ _ bad).
    + apply first_unsupported_None in Eu.
      destruct (Z.lt_trichotomy mb 0) as [Hneg|[->|Hpos]].
      * now rewrite (hash_text_negative _ data).
      * now rewrite (hash_text_zero _ data).
      * now rewrite (hash_text_positive _ data).
  - now rewrite (hash_text_unencodable _ _ _ p).
Qed.

Lemma hash_file_terminates fs path algs mb :
  result (hash_file fs path algs mb) <> OutOfFuel.
Proof.
  destruct (os_path_isfile fs path) eqn:Ef.
  - apply isfile_regular in Ef. destruct Ef as [content Hf].
    destruct (first_unsupported (requested algs)) as [bad|] eqn:Eu.
    + now rewrite (hash_file_unsupported _ _ content _ _ bad).
    + apply first_unsupported_None in Eu.
      rewrite (hash_file_result _ _ content) by assumption.
      destruct (negb _); [discriminate|].
      now destruct (mb <? 0).
  - now rewrite hash_file_missing.
Qed.

(** ** Test vectors of the hash functions *)

Example md5_abc :
  hexdigest_of hashlib.MD5 (hashlib.ascii_bytes "abc")
  = str "900150983cd24fb0d6963f7d28e17f72".
Proof. vm_compute. reflexivity. Qed.

Example sha1_abc :
  hexdigest_of hashlib.SHA1 (hashlib.ascii_bytes "abc")
  = str "a9993e364706816aba3e25717850c26c9cd0d89d".
Proof. vm_compute. reflexivity. Qed.

Example sha256_abc :
  hexdigest_of hashlib.SHA256 (hashlib.ascii_bytes "abc")
  = str "ba7816bf8f01cfea414140de5dae2223b00361a396177a9cb410ff61f20015ad".
Proof. vm_compute. reflexivity. Qed.

Example sha512_abc :
  hexdigest_of hashlib.SHA512 (hashlib.ascii_bytes "abc")
  = str ("ddaf35a193617abacc417349ae20413112e6fa4e89a97ea20a9eeee64b55d39a"
         ++ "2192992a274fc1a836ba3c23a3feebbd454d4423643ce80e2a9ac94fa54ca49f").
Proof. vm_compute. reflexivity. Qed.

Example md5_long :
  hexdigest_of hashlib.MD5 long_message
  = str "4298951876af905376a025f7279651c2".
Proof. vm_compute. reflexivity. Qed.

Example sha1_long :
  hexdigest_of hashlib.SHA1 long_message
  = str "6e95f38fbdd38454ab4370ca87d628b526515950".
Proof. vm_compute. reflexivity. Qed.

Example sha256_long :
  hexdigest_of hashlib.SHA256 long_message
  = str "4d5e47a2e8510a314576c238f6ff19d389d3ef3aaaca8b2e530263a5d15741da".
Proof. vm_compute. reflexivity. Qed.

Example sha512_long :
  hexdigest_of hashlib.SHA512 long_message
  = str ("e38d23489b6bf760461923d2ea90d29991bf1920b095d6bae2ab1b2398ef12a8"
         ++ "6b42d5c50ccf92a4655c708cf5d24e2b88a8ffa8c03c55549e5a00f3ee612a0f").
Proof. vm_compute. reflexivity. Qed.

(** * The properties at concrete inputs *)

Ltac supported_list :=
  unfold supported; repeat constructor; simpl; auto 10.




(** The request [sha256, bogus, md5] fails naming [bogus]. *)
Lemma validation_short_circuit_witness :
  first_unsupported [str "sha256"; str "bogus"; str "md5"]
  = Some (str "bogus")
  /\ hash_file example_fs (str "a.txt")
               (Some [str "sha256"; str "bogus"; str "md5"]) 8
     = ([], Raise (ValueError (str "Unsupported hash_algorithm: bogus")))
  /\ hash_text (str "abc") (Some [str "sha256"; str "bogus"; str "md5"]) 8
     = ([], Raise (ValueError (str "Unsupported hash_algorithm: bogus"))).
Proof.
  assert (H0 : first_unsupported [str "sha256"; str "bogus"; str "md5"]
               = Some (str "bogus")) by (vm_compute; reflexivity).
  destruct (validation_short_circuit _ _ H0) as [Hf Ht].
  split; [assumption|]. split.
  - apply (Hf example_fs (str "a.txt") (hashlib.ascii_bytes "abc")).
    vm_compute. reflexivity.
  - apply (Ht (str "abc") (hashlib.ascii_bytes "abc")).
    vm_compute. reflexivity.
Defined.




(** A path that [example_fs] does not hold. *)
Lemma input_not_found_witness :
  (forall content,
      example_fs (str "missing.txt") <> Some (RegularFile content))
  /\ hash_file example_fs (str "missing.txt") None 8
     = ([], Raise (FileNotFoundError
                     (str "Not found file_path: missing.txt"))).
Proof.
  assert (H0 : forall content,
             example_fs (str "missing.txt") <> Some (RegularFile content))
    by (intros content; vm_compute; discriminate).
  split; [assumption|].
  exact (input_not_found example_fs (str "missing.txt") None 8 H0).
Defined.

(** The file [a.txt], which holds [abc], hashed with chunk size zero. *)
Lemma zero_chunk_size_witness :
  example_fs (str "a.txt") = Some (RegularFile (hashlib.ascii_bytes "abc"))
  /\ supported (requested None)
  /\ exists d,
      result (hash_file example_fs (str "a.txt") None 0) = Return d
      /\ dict_get (str "sha1") d
         = Some (str "da39a3ee5e6b4b0d3255bfef95601890afd80709").
Proof.
  assert (H0 : example_fs (str "a.txt")
               = Some (RegularFile (hashlib.ascii_bytes "abc")))
    by (vm_compute; reflexivity).
  assert (H1 : supported (requested None)) by supported_list.
  repeat (split; [assumption|]).
  destruct (zero_chunk_size _ _ _ _ H0 H1) as ((d & Hd & _ & Hg) & _).
  exists d. split; [assumption|]. apply Hg. simpl. auto.
Defined.

(** Ten letters shortened to seven characters. *)
Lemma display_truncation_witness :
  5 <= 7 /\ 7 < len (str "abcdefghij")
  /\ middle_truncated (str "abcdefghij") 7
       (_shorten_middle_text (str "abcdefghij") 7)
  /\ _shorten_middle_text (str "abc") 7 = str "abc".
Proof.
  assert (H0 : 5 <= 7) by lia.
  assert (H1 : 7 < len (str "abcdefghij")) by (vm_compute; reflexivity).
  repeat (split; [assumption|]).
  split.
  - now apply (display_truncation (str "abcdefghij") 7).
  - apply (display_truncation (str "abc") 7). vm_compute. discriminate.
Defined.

(** ** Chunk completeness at the level of the calls *)

(** What C2 says of the loops holds of the calls: under every requested
    key the chunks fed during [hash_text] cut the encoded text every
    [chunk_size_mb * 1024 * 1024] bytes. *)
Lemma hash_text_chunks text data algs mb key :
  encode_utf8 text = ret data ->
  supported (requested algs) ->
  0 < mb ->
  In key (requested algs) ->
  partitions (mb * 1024 * 1024) data
             (fed key (events (hash_text text algs mb))).
Proof.
  intros He Hs Hmb Hin. rewrite (hash_text_positive _ data) by assumption.
  cbn [events fst]. rewrite fed_app, fed_news. cbn [app fed].
  rewrite fed_passes
    by (apply first_occurrences_NoDup || now apply first_occurrences_In).
  rewrite <- (Z2Nat.id (mb * 1024 * 1024)) at 1 by lia.
  apply chunks_partitions. lia.
Qed.

Lemma reads_pass ks chunk : reads (pass ks chunk) = [].
Proof.
  unfold pass. rewrite reads_app. cbn [reads]. rewrite app_nil_r.
  induction ks as [|k ks IH]; [reflexivity | exact IH].
Qed.

Lemma reads_read_passes ks size cs :
  reads (flat_map (fun chunk => EvRead size chunk :: pass ks chunk) cs) = cs.
Proof.
  induction cs as [|c cs IH]; [reflexivity|].
  cbn [flat_map app reads]. now rewrite reads_app, reads_pass, IH.
Qed.

(** The same for [hash_file] and the content of the file; the chunks fed
    are the non-empty chunks read. *)
Lemma hash_file_chunks fs path content algs mb key :
  fs path = Some (RegularFile content) ->
  supported (requested algs) ->
  0 < mb ->
  mb * 1024 * 1024 <= sys_maxsize ->
  In key (requested algs) ->
  partitions (mb * 1024 * 1024) content
             (fed key (events (hash_file fs path algs mb)))
  /\ reads (events (hash_file fs path algs mb))
     = fed key (events (hash_file fs path algs mb)) ++ [[]].
Proof.
  intros Hf Hs Hmb Hfit Hin.
  rewrite (hash_file_positive _ _ content) by assumption.
  cbn [events fst].
  rewrite fed_app, fed_news, reads_app, reads_news. cbn [app fed reads].
  rewrite fed_app, reads_app. cbn [fed reads]. rewrite app_nil_r.
  rewrite reads_read_passes.
  rewrite fed_read_passes
    by (apply first_occurrences_NoDup || now apply first_occurrences_In).
  split; [|reflexivity].
  rewrite <- (Z2Nat.id (mb * 1024 * 1024)) at 1 by lia.
  apply chunks_partitions. lia.
Qed.

(** * Further properties of the code *)

Import Cli.

(** ** More on reading a trace *)

Lemma ticked_app t1 t2 : ticked (t1 ++ t2) = ticked t1 + ticked t2.
Proof.
  induction t1 as [|e t1 IH]; [reflexivity|].
  destruct e; cbn [app ticked]; try assumption. lia.
Qed.

Lemma ticked_news l : ticked (map EvNew l) = 0.
Proof. induction l; [reflexivity | assumption]. Qed.



Lemma len_app {A} (a b : list A) : len (a ++ b) = len a + len b.
Proof. unfold len. rewrite length_app. lia. Qed.









Lemma made_news l : made (map EvNew l) = l.
Proof. induction l as [|i l IH]; [reflexivity|]. cbn. now rewrite IH. Qed.







(** ** The engine outside the positive chunk sizes *)

(** X1: a negative [chunk_size_mb] makes [hash_text] skip its loop: for an
    encodable text and a supported request it returns the empty-input
    digest for every requested algorithm, whatever the text, feeds no hash
    object and reports no progress. *)
Theorem hash_text_negative_chunk (text : pystr) (data : bytes)
    (algs : option (list pystr)) (mb : Z) :
  encode_utf8 text = ret data ->
  supported (requested algs) ->
  mb < 0 ->
  (exists d,
      result (hash_text text algs mb) = Return d
      /\ keys d = first_occurrences (requested algs)
      /\ forall i, In i (requested algs) -> dict_get i d = empty_digest i)
  /\ (forall key, fed key (events (hash_text text algs mb)) = [])
  /\ ticked (events (hash_text text algs mb)) = 0.
Proof.
  intros He Hs Hmb. rewrite (hash_text_negative _ data) by assumption.
  cbn [result events fst snd]. repeat split.
  - exists (digests (requested algs) []). repeat split.
    + apply keys_digests.
    + intros i Hi. now apply dict_get_digests_empty.
  - intros key. now rewrite fed_app, fed_news.
  - now rewrite ticked_app, ticked_news.
Qed.

(** X2: a negative [chunk_size_mb] whose chunk size in bytes still fits
    a machine word makes [hash_file] fail at its first read: for an
    existing file and a supported request it raises the [ValueError] of
    [read], after it has made the hash objects and opened the file, and
    before any byte is read or fed. *)
Theorem hash_file_negative_chunk (fs : filesystem) (path : pystr)
    (content : bytes) (algs : option (list pystr)) (mb : Z) :
  fs path = Some (RegularFile content) ->
  supported (requested algs) ->
  mb < 0 ->
  - sys_maxsize - 1 <= mb * 1024 * 1024 ->
  hash_file fs path algs mb
  = (map EvNew (requested algs)
       ++ [EvOpen path; EvBar (len content) (describe (requested algs) path)],
     Raise (ValueError (str "read length must be non-negative or -1"))).
Proof.
  intros Hf Hs Hmb Hfit. rewrite (hash_file_stream _ _ content) by assumption.
  now rewrite stream_file_negative by lia.
Qed.

(** X21: a [chunk_size_mb] whose chunk size in bytes does not fit a
    machine word, [2 ^ 43] or more or below [- 2 ^ 43], makes [hash_file]
    fail at its first read with [OverflowError], for an existing file and
    a supported request, after it has made the hash objects and opened the
    file and before any byte is read or fed; [hash_text] has no such
    limit and, for a positive size, returns the digests of the text. *)
Theorem oversized_chunk (algs : option (list pystr)) (mb : Z) :
  supported (requested algs) ->
  mb * 1024 * 1024 < - sys_maxsize - 1 \/ sys_maxsize < mb * 1024 * 1024 ->
  (forall fs path content,
      fs path = Some (RegularFile content) ->
      hash_file fs path algs mb
      = (map EvNew (requested algs)
           ++ [EvOpen path;
               EvBar (len content) (describe (requested algs) path)],
         Raise OverflowError))
  /\ (forall text data,
        encode_utf8 text = ret data -> 0 < mb ->
        result (hash_text text algs mb)
        = Return (digests (requested algs) data)).
Proof.
  intros Hs Hbig. split.
  - intros fs path content Hf. apply (hash_file_overflow _ _ content);
      try assumption. now apply fits_ssize_false.
  - intros text data He Hmb. now rewrite (hash_text_positive _ data).
Qed.

(** ** Progress and passes *)



(** ** Validation and the request *)

(** X5: validation either accepts the list and returns it as it is, with
    its order and its duplicates, exactly when every identifier is one of
    the four supported names, or it raises the [ValueError] that names an
    identifier of the list that is not supported, the first such one; it
    never drops or replaces an identifier, and it causes no event. *)
Theorem validation_outcome (l : list pystr) :
  (supported l /\ _validate_hash_algorithms l = ([], Return l))
  \/ (~ supported l
      /\ exists bad,
          first_unsupported l = Some bad
          /\ In bad l /\ ~ In bad support_hash_algorithms
          /\ _validate_hash_algorithms l
             = ([], Raise (ValueError
                             (str "Unsupported hash_algorithm: " ++ bad)))).
Proof.
  destruct (first_unsupported l) as [bad|] eqn:E.
  - right. split.
    + intros Hs. apply first_unsupported_None in Hs. congruence.
    + exists bad. pose proof E as F. unfold first_unsupported in F.
      apply find_some in F. destruct F as [Hin Hb].
      repeat split; try assumption.
      * intros Hsup. apply py_in_In in Hsup. rewrite Hsup in Hb.
        discriminate.
      * now apply validate_unsupported.
  - left. apply first_unsupported_None in E. split; [assumption|].
    now apply validate_supported.
Qed.


(** ** The digests returned *)

Lemma Z_of_byte_range b : 0 <= Z_of_byte b < 256.
Proof.
  unfold Z_of_byte. pose proof (Byte.to_N_bounded b). lia.
Qed.

Lemma hexchar_lower d : 0 <= d < 16 -> lower_hex (hashlib.hexchar d).
Proof.
  intros H. unfold hashlib.hexchar, lower_hex.
  destruct (Z.ltb_spec d 10); lia.
Qed.

Lemma hex_length bs : length (hashlib.hex bs) = (2 * length bs)%nat.
Proof.
  unfold hashlib.hex. induction bs as [|b bs IH]; [reflexivity|].
  cbn [flat_map app length]. rewrite IH. lia.
Qed.

Lemma hex_lower bs : Forall lower_hex (hashlib.hex bs).
Proof.
  unfold hashlib.hex. induction bs as [|b bs IH]; [constructor|].
  cbn [flat_map app]. pose proof (Z_of_byte_range b).
  constructor; [|constructor; [|assumption]]; apply hexchar_lower.
  - split; [apply Z.div_pos | apply Z.div_lt_upper_bound]; lia.
  - apply Z.mod_pos_bound. lia.
Qed.

Lemma le_bytes_length n x : length (hashlib.le_bytes n x) = n.
Proof.
  revert x. induction n as [|n IH]; intros x; [reflexivity|].
  cbn [hashlib.le_bytes length]. now rewrite IH.
Qed.

Lemma be_bytes_length n x : length (hashlib.be_bytes n x) = n.
Proof. unfold hashlib.be_bytes. now rewrite length_rev, le_bytes_length. Qed.

Lemma flat_map_length_const {A B} (f : A -> list B) k l :
  (forall x, length (f x) = k) -> length (flat_map f l) = (k * length l)%nat.
Proof.
  intros Hf. induction l as [|x l IH]; [cbn; lia|].
  cbn [flat_map length]. rewrite length_app, Hf, IH. lia.
Qed.

Lemma output_length a h :
  length h = chain_words a ->
  length (hashlib.output a h) = digest_size a.
Proof.
  intros Hh. destruct a; unfold hashlib.output.
  - rewrite (flat_map_length_const _ 4) by apply le_bytes_length.
    rewrite Hh. reflexivity.
  - rewrite (flat_map_length_const _ 4) by apply be_bytes_length.
    rewrite Hh. reflexivity.
  - rewrite (flat_map_length_const _ 4) by apply be_bytes_length.
    rewrite Hh. reflexivity.
  - rewrite (flat_map_length_const _ 8) by apply be_bytes_length.
    rewrite Hh. reflexivity.
Qed.

Lemma sha2_round_length p ws t s :
  length (hashlib.sha2_round p ws t s) = length s.
Proof.
  unfold hashlib.sha2_round.
  destruct s as [|a [|b [|c [|d [|e [|f [|g [|h [|i s]]]]]]]]]; reflexivity.
Qed.

Lemma sha2_compress_length p h block :
  length (hashlib.sha2_compress p h block) = length h.
Proof.
  unfold hashlib.sha2_compress. rewrite length_map, length_combine.
  enough (E : forall ts s,
             length (fold_left
                       (fun s t =>
                          hashlib.sha2_round p (hashlib.sha2_schedule p block)
                                             t s) ts s)
             = length s) by (rewrite E; lia).
  induction ts as [|t ts IH]; intros s; [reflexivity|].
  cbn [fold_left]. now rewrite IH, sha2_round_length.
Qed.

Lemma compress_length a h block :
  length h = chain_words a ->
  length (hashlib.compress a h block) = chain_words a.
Proof.
  intros Hh. destruct a; cbn [hashlib.compress chain_words] in *.
  - unfold hashlib.md5_compress.
    now destruct (fold_left _ _ _) as [[[? ?] ?] ?].
  - unfold hashlib.sha1_compress.
    now destruct (fold_left _ _ _) as [[[[? ?] ?] ?] ?].
  - now rewrite sha2_compress_length.
  - now rewrite sha2_compress_length.
Qed.

(** Feeding keeps the algorithm and the size of the chaining value. *)
Lemma update_shape data : forall h,
  length (hashlib.chain h) = chain_words (hashlib.algorithm h) ->
  hashlib.algorithm (hashlib.update h data) = hashlib.algorithm h
  /\ length (hashlib.chain (hashlib.update h data))
     = chain_words (hashlib.algorithm h).
Proof.
  unfold hashlib.update.
  induction data as [|b data IH]; intros h Hh; [now split|].
  cbn [fold_left].
  assert (S : hashlib.algorithm (hashlib.absorb h b) = hashlib.algorithm h
              /\ length (hashlib.chain (hashlib.absorb h b))
                 = chain_words (hashlib.algorithm h)).
  { unfold hashlib.absorb.
    destruct (Nat.eqb _ _); cbn [hashlib.algorithm hashlib.chain];
      split; try reflexivity; try assumption.
    now apply compress_length. }
  destruct S as [Sa Sl]. destruct (IH (hashlib.absorb h b)) as [Ia Il].
  - now rewrite Sa.
  - rewrite Ia, Il, Sa. now split.
Qed.

Lemma hexdigest_shape h :
  length (hashlib.chain h) = chain_words (hashlib.algorithm h) ->
  length (hashlib.hexdigest h) = (2 * digest_size (hashlib.algorithm h))%nat
  /\ Forall lower_hex (hashlib.hexdigest h).
Proof.
  intros Hh. unfold hashlib.hexdigest. split; [|apply hex_lower].
  rewrite hex_length. f_equal. unfold hashlib.digest.
  apply output_length. now apply update_shape.
Qed.

Lemma dict_get_map_inv {V} (v : pystr -> V) l i x :
  dict_get i (map (fun k => (k, v k)) l) = Some x -> In i l /\ x = v i.
Proof.
  induction l as [|k l IH]; [discriminate|].
  cbn [map dict_get]. destruct (pystr_eqb i k) eqn:E.
  - apply pystr_eqb_eq in E. subst. intros [= <-]. split; [now left|reflexivity].
  - intros H. destruct (IH H) as [Hin Hx]. split; [now right | assumption].
Qed.

Lemma digests_shape l data i x :
  supported l ->
  dict_get i (digests l data) = Some x ->
  exists a,
    getattr_hashlib i = Some a
    /\ length x = (2 * digest_size a)%nat
    /\ Forall lower_hex x.
Proof.
  intros Hs Hget. unfold digests in Hget.
  apply (dict_get_map_inv
           (fun k => hashlib.hexdigest (hashlib.update (construct k) data)))
    in Hget.
  destruct Hget as [Hin ->].
  apply (proj1 (first_occurrences_In l i)) in Hin.
  unfold supported in Hs. rewrite Forall_forall in Hs.
  destruct (supported_construct i (Hs i Hin)) as (a & Ha & Hc).
  exists a. split; [assumption|]. rewrite Hc.
  assert (Hn : length (hashlib.chain (hashlib.new a))
               = chain_words (hashlib.algorithm (hashlib.new a)))
    by (destruct a; reflexivity).
  destruct (update_shape data _ Hn) as [Ua Ul].
  destruct (hexdigest_shape (hashlib.update (hashlib.new a) data)) as [Hl Hx].
  - now rewrite Ua.
  - rewrite Ua in Hl. now split.
Qed.

(** Whatever a call returns under a supported request is the dictionary
    of the one-piece digests of some input. *)
Lemma hash_text_returns text algs mb d :
  supported (requested algs) ->
  result (hash_text text algs mb) = Return d ->
  exists data, d = digests (requested algs) data.
Proof.
  intros Hs. destruct (encode_utf8_cases text) as [[data He]|[p He]].
  - destruct (Z.lt_trichotomy mb 0) as [Hneg|[->|Hpos]].
    + rewrite (hash_text_negative _ data) by assumption.
      intros [= <-]. now exists [].
    + now rewrite (hash_text_zero _ data).
    + rewrite (hash_text_positive _ data) by assumption.
      intros [= <-]. now exists data.
  - now rewrite (hash_text_unencodable _ _ _ p).
Qed.

Lemma hash_file_returns fs path algs mb d :
  supported (requested algs) ->
  result (hash_file fs path algs mb) = Return d ->
  exists data, d = digests (requested algs) data.
Proof.
  intros Hs. destruct (os_path_isfile fs path) eqn:Ef.
  - apply isfile_regular in Ef. destruct Ef as [content Hf].
    rewrite (hash_file_result _ _ content) by assumption.
    destruct (negb _); [discriminate|].
    destruct (mb <? 0); [discriminate|].
    intros [= <-]. now eexists.
  - now rewrite hash_file_missing.
Qed.

(** X7: under a supported request every digest that [hash_text] or
    [hash_file] returns is a string of lowercase hexadecimal digits of the
    length fixed by its algorithm: 32 for md5, 40 for sha1, 64 for sha256,
    128 for sha512. *)
Theorem digest_format (algs : option (list pystr)) (i x : pystr)
    (d : dict pystr) :
  supported (requested algs) ->
  dict_get i d = Some x ->
  (exists text mb, result (hash_text text algs mb) = Return d)
  \/ (exists fs path mb, result (hash_file fs path algs mb) = Return d) ->
  exists a,
    getattr_hashlib i = Some a
    /\ length x = (2 * digest_size a)%nat
    /\ Forall lower_hex x.
Proof.
  intros Hs Hget [(text & mb & H)|(fs & path & mb & H)].
  - destruct (hash_text_returns _ _ _ _ Hs H) as [data ->].
    now apply (digests_shape (requested algs) data).
  - destruct (hash_file_returns _ _ _ _ _ Hs H) as [data ->].
    now apply (digests_shape (requested algs) data).
Qed.

(** ** More on the display labels *)

Lemma shorten_short text m :
  len text <= m -> _shorten_middle_text text m = text.
Proof.
  intros H. unfold _shorten_middle_text.
  destruct (Z.leb_spec (len text) m); [reflexivity | lia].
Qed.

Lemma shorten_cut text m :
  5 <= m -> m < len text ->
  _shorten_middle_text text m
  = firstn (Z.to_nat ((m - 3) / 2)) text ++ str "..."
      ++ skipn (length text - Z.to_nat ((m - 3) / 2)) text.
Proof.
  intros H5 Hlt. unfold _shorten_middle_text.
  destruct (Z.leb_spec (len text) m); [lia|].
  assert (Hp : 1 <= (m - 3) / 2) by (apply Z.div_le_lower_bound; lia).
  assert (Hq : 2 * ((m - 3) / 2) <= m - 3) by (apply Z.mul_div_le; lia).
  now rewrite py_slice_prefix, py_slice_suffix by (unfold len in *; lia).
Qed.

Lemma shorten_cut_length text m :
  5 <= m -> m < len text ->
  len (_shorten_middle_text text m) = 2 * ((m - 3) / 2) + 3.
Proof.
  intros H5 Hlt. rewrite shorten_cut by assumption.
  assert (Hp : 1 <= (m - 3) / 2) by (apply Z.div_le_lower_bound; lia).
  assert (Hq : 2 * ((m - 3) / 2) <= m - 3) by (apply Z.mul_div_le; lia).
  unfold len in *. rewrite !length_app, length_firstn, length_skipn.
  change (length (str "...")) with 3%nat. lia.
Qed.

Lemma shorten_bound text m :
  5 <= m -> len (_shorten_middle_text text m) <= m.
Proof.
  intros H5. destruct (Z.le_gt_cases (len text) m) as [H|H].
  - now rewrite shorten_short.
  - rewrite shorten_cut_length by lia.
    assert (Hq : 2 * ((m - 3) / 2) <= m - 3) by (apply Z.mul_div_le; lia).
    lia.
Qed.

(** X8: when the text is longer than [m] and [m] is at least 5, the
    label keeps the first and the last [(m - 3) // 2] characters of the
    text around the three dots, so that it has exactly [m] characters when
    [m] is odd and [m - 1] when [m] is even: 49 for the default 50. *)
Theorem shortened_length (text : pystr) (m : Z) :
  5 <= m -> m < len text ->
  _shorten_middle_text text m
  = firstn (Z.to_nat ((m - 3) / 2)) text ++ str "..."
      ++ skipn (length text - Z.to_nat ((m - 3) / 2)) text
  /\ len (_shorten_middle_text text m) = (if Z.odd m then m else m - 1).
Proof.
  intros H5 Hlt. split; [now apply shorten_cut|].
  rewrite shorten_cut_length by assumption.
  pose proof (Zdiv.Zmod_odd m) as Hodd.
  pose proof (Z.div_mod (m - 3) 2 ltac:(lia)) as Hd.
  pose proof (Z.mod_pos_bound (m - 3) 2 ltac:(lia)) as Hb.
  pose proof (Z.div_mod m 2 ltac:(lia)) as Hd'.
  destruct (Z.odd m); lia.
Qed.

(** X9: shortening is idempotent for every maximum of at least 5: a label
    that has been shortened is left as it is when shortened again. *)
Theorem shorten_idempotent (text : pystr) (m : Z) :
  5 <= m ->
  _shorten_middle_text (_shorten_middle_text text m) m
  = _shorten_middle_text text m.
Proof.
  intros H5. apply shorten_short. now apply shorten_bound.
Qed.

Lemma py_slice_to_zero {A} (l : list A) : py_slice None (Some 0) l = [].
Proof.
  unfold py_slice, slice_index. destruct (Z.ltb_spec 0 0); [lia|].
  rewrite Z.min_l by lia. reflexivity.
Qed.

Lemma py_slice_from_zero {A} (l : list A) : py_slice (Some 0) None l = l.
Proof.
  unfold py_slice, slice_index. destruct (Z.ltb_spec 0 0); [lia|].
  rewrite Z.min_l, Z.sub_0_r, Nat2Z.id by lia. apply firstn_all.
Qed.

(** X10: with a maximum of 3 or 4 the half-width is 0 and the suffix
    [text[-0:]] is the whole text: a text longer than the maximum comes
    back whole behind the three dots, three characters longer than it
    was. *)
Theorem shorten_zero_part (text : pystr) (m : Z) :
  m = 3 \/ m = 4 -> m < len text ->
  _shorten_middle_text text m = str "..." ++ text
  /\ len (_shorten_middle_text text m) = len text + 3.
Proof.
  intros Hm Hlt.
  assert (E : _shorten_middle_text text m = str "..." ++ text).
  { unfold _shorten_middle_text.
    destruct (Z.leb_spec (len text) m); [lia|].
    replace ((m - 3) / 2) with 0 by (destruct Hm; subst; reflexivity).
    change (- 0) with 0.
    now rewrite py_slice_to_zero, py_slice_from_zero. }
  split; [assumption|]. rewrite E, len_app.
  change (len (str "...")) with 3. lia.
Qed.

(** ** The table *)

(** X11: the table has one row for each row it is given, in the same
    order; the algorithm, the kind of input and the digest go into it
    unchanged, the digest in full, and the input label is shown in at
    most 50 characters, unchanged when it has no more than that. *)
Theorem table_rows_shape (rows : list row) :
  Forall2
    (fun (r : row) (shown : list pystr) =>
       exists label,
         shown = [fst (fst (fst r)); snd (fst (fst r)); label; snd r]
         /\ len label <= 50
         /\ (len (snd (fst r)) <= 50 -> label = snd (fst r)))
    rows (table_rows (build_table rows)).
Proof.
  cbn [build_table table_rows].
  induction rows as [|[[[r0 r1] r2] r3] rows IH]; [constructor|].
  cbn [map]. constructor; [|exact IH].
  exists (_shorten_middle_text r2 50). cbn [fst snd]. repeat split.
  - apply shorten_bound. lia.
  - apply shorten_short.
Qed.

(** ** Parsing the requested algorithms *)

Lemma py_split_cons sep s : exists piece pieces, py_split sep s = piece :: pieces.
Proof.
  induction s as [|c s (piece & pieces & IH)]; [now exists [], []|].
  cbn [py_split]. destruct (c =? sep); [now eexists; eexists|].
  rewrite IH. now eexists; eexists.
Qed.

Lemma py_split_whole sep x : ~ In sep x -> py_split sep x = [x].
Proof.
  induction x as [|c x IH]; intros H; [reflexivity|].
  cbn [py_split]. destruct (Z.eqb_spec c sep) as [->|_].
  - exfalso. apply H. now left.
  - rewrite IH; [reflexivity|]. intros Hin. apply H. now right.
Qed.

Lemma py_split_app sep x rest :
  ~ In sep x -> py_split sep (x ++ sep :: rest) = x :: py_split sep rest.
Proof.
  induction x as [|c x IH]; intros H.
  - cbn [app py_split]. now rewrite Z.eqb_refl.
  - cbn [app py_split]. destruct (Z.eqb_spec c sep) as [->|_].
    + exfalso. apply H. now left.
    + rewrite IH; [reflexivity|]. intros Hin. apply H. now right.
Qed.

Lemma py_split_length sep s :
  length (py_split sep s) = S (count_occ Z.eq_dec s sep).
Proof.
  induction s as [|c s IH]; [reflexivity|].
  cbn [py_split count_occ]. destruct (Z.eqb_spec c sep) as [->|Hn].
  - destruct (Z.eq_dec sep sep); [|contradiction]. cbn [length]. now rewrite IH.
  - destruct (Z.eq_dec c sep); [contradiction|].
    destruct (py_split_cons sep s) as (piece & pieces & E).
    rewrite E in *. exact IH.
Qed.

Lemma py_strip_space x : py_strip (32 :: x) = py_strip x.
Proof. reflexivity. Qed.

Lemma py_split_join x l :
  Forall (fun y => ~ In comma y) (x :: l) ->
  py_split comma (py_join (str ", ") (x :: l)) = x :: map (cons 32) l.
Proof.
  revert x. induction l as [|y l IH]; intros x H.
  - cbn [py_join map]. apply py_split_whole. now inversion H.
  - inversion H as [|? ? Hx Hl]; subst.
    change (py_join (str ", ") (x :: y :: l))
      with (x ++ comma :: 32 :: py_join (str ", ") (y :: l)).
    rewrite py_split_app by assumption.
    cbn [py_split map]. change (32 =? comma) with false. cbv iota.
    now rewrite IH.
Qed.

(** X12: a request written as the names joined by [", "], the way the
    help text and the progress label write it, parses back to those
    names, provided there is at least one, none is empty or holds a comma,
    and none has white space at its ends; so it does for the default
    request. *)
Theorem parse_join_round_trip (l : list pystr) :
  l <> [] ->
  Forall (fun x => x <> [] /\ ~ In comma x /\ py_strip x = x) l ->
  parse_algorithms (Some (py_join (str ", ") l)) = l.
Proof.
  intros Hne Hl. destruct l as [|x l]; [contradiction|].
  unfold parse_algorithms.
  assert (Hc : Forall (fun y => ~ In comma y) (x :: l))
    by (eapply Forall_impl; [|exact Hl]; now intros y (_ & H & _)).
  assert (Ht : truthy (Some (py_join (str ", ") (x :: l))) = true).
  { inversion Hl as [|? ? (Hx & _) _]; subst.
    destruct x as [|c x]; [contradiction|]. now destruct l. }
  rewrite Ht. cbn [given]. rewrite py_split_join by assumption.
  inversion Hl as [|? ? (_ & _ & Hx) Hl']; subst.
  cbn [map]. rewrite Hx. f_equal. rewrite map_map.
  rewrite <- (map_id l) at 2. apply map_ext_in. intros y Hy.
  rewrite py_strip_space. rewrite Forall_forall in Hl'.
  now destruct (Hl' y Hy) as (_ & _ & E).
Qed.

(** X13: the request that [main] hands to the engine is never empty: it
    is the default of four names when the option is absent or empty, and
    otherwise it has one identifier more than the option has commas, an
    empty one wherever two separators are adjacent or one is at an end. *)
Theorem parsed_request_never_empty (hash_algorithm : option pystr) :
  parse_algorithms hash_algorithm <> []
  /\ (truthy hash_algorithm = false ->
      parse_algorithms hash_algorithm = default_hash_algorithms)
  /\ (truthy hash_algorithm = true ->
      length (parse_algorithms hash_algorithm)
      = S (count_occ Z.eq_dec (given hash_algorithm) comma)).
Proof.
  unfold parse_algorithms. destruct (truthy hash_algorithm).
  - repeat split; try discriminate.
    + destruct (py_split_cons comma (given hash_algorithm))
        as (piece & pieces & E).
      rewrite E. discriminate.
    + intros _. now rewrite length_map, py_split_length.
  - repeat split; discriminate.
Qed.

(** ** The command line *)

Lemma truthy_py_or a b : truthy (py_or a b) = truthy a || truthy b.
Proof. unfold py_or. now destruct (truthy a) eqn:E. Qed.

Lemma resolve_given fs input file text :
  truthy file || truthy text = true ->
  resolve fs input file text = ([], (file, text)).
Proof.
  intros H. unfold resolve. now rewrite truthy_py_or, H, andb_false_r.
Qed.

Lemma resolve_nothing fs input file text :
  truthy input = false -> resolve fs input file text = ([], (file, text)).
Proof. intros H. unfold resolve. now rewrite H. Qed.

Lemma resolve_positional fs input file text :
  truthy input = true -> truthy file = false -> truthy text = false ->
  resolve fs input file text
  = ([CliIsFile (given input)],
     if os_path_isfile fs (given input) then (input, None) else (None, input)).
Proof.
  intros Hi Hf Ht. unfold resolve. rewrite truthy_py_or, Hi, Hf, Ht.
  cbn [andb orb negb]. destruct (os_path_isfile fs (given input)).
  - now rewrite Hi.
  - reflexivity.
Qed.

(** [main] once the input is settled: exactly one of the two is given. *)
Lemma main_settled fs render seen input file text file' text' h c :
  resolve fs input file text = (seen, (file', text')) ->
  xorb (truthy file') (truthy text') = true ->
  main fs render input file text h c
  = (seen ++ fst (hash_and_show fs render file' text' h c),
     snd (hash_and_show fs render file' text' h c)).
Proof.
  intros Hr Hx. unfold main. rewrite Hr.
  destruct (truthy file'), (truthy text'); try discriminate; cbn [negb andb];
    now destruct (hash_and_show _ _ _ _ _ _).
Qed.

(** X14: when both a file and a text are given, [main] prints the line
    that asks for only one and exits with status 1, whatever the
    positional argument; it does not look at the file system and hashes
    nothing. *)
Theorem main_ambiguous_input (fs : filesystem) (render : table -> option exn)
    (input file text hash_algorithm : option pystr) (chunk_size : Z) :
  truthy file = true -> truthy text = true ->
  main fs render input file text hash_algorithm chunk_size
  = ([CliEcho (str "Error: choose only one of --file or --text")], Exit 1).
Proof.
  intros Hf Ht. unfold main.
  rewrite resolve_given by (now rewrite Hf). now rewrite Hf, Ht.
Qed.

(** X15: when no positional argument, no file and no text is given, an
    empty string counting as not given, [main] prints the line that asks
    for one and exits with status 1; in particular the empty text cannot
    be hashed from the command line. *)
Theorem main_missing_input (fs : filesystem) (render : table -> option exn)
    (input file text hash_algorithm : option pystr) (chunk_size : Z) :
  truthy input = false -> truthy file = false -> truthy text = false ->
  main fs render input file text hash_algorithm chunk_size
  = ([CliEcho (str "Error: provide --file or --text")], Exit 1).
Proof.
  intros Hi Hf Ht. unfold main.
  rewrite resolve_nothing by assumption. now rewrite Hf, Ht.
Qed.

(** X16: a positional argument given alone is looked up once in the file
    system, and from there on the run is the run with that argument as
    [--file] when it is an existing regular file, and as [--text] when it
    is not. *)
Theorem main_positional (fs : filesystem) (render : table -> option exn)
    (input file text hash_algorithm : option pystr) (chunk_size : Z) :
  truthy input = true -> truthy file = false -> truthy text = false ->
  let rest :=
    if os_path_isfile fs (given input)
    then main fs render None input None hash_algorithm chunk_size
    else main fs render None None input hash_algorithm chunk_size in
  main fs render input file text hash_algorithm chunk_size
  = (CliIsFile (given input) :: fst rest, snd rest).
Proof.
  intros Hi Hf Ht rest. subst rest.
  pose proof (resolve_positional fs input file text Hi Hf Ht) as Hr.
  destruct (os_path_isfile fs (given input)).
  - rewrite (main_settled _ _ _ _ _ _ _ _ _ _ Hr) by (now rewrite Hi).
    rewrite (main_settled fs render [] None input None input None)
      by (reflexivity || now rewrite Hi).
    reflexivity.
  - rewrite (main_settled _ _ _ _ _ _ _ _ _ _ Hr) by (now rewrite Hi).
    rewrite (main_settled fs render [] None None input None input)
      by (reflexivity || now rewrite Hi).
    reflexivity.
Qed.

Lemma engine_not_table t : existsb is_table (map CliEngine t) = false.
Proof. induction t; [reflexivity | assumption]. Qed.

Lemma engine_not_message t : existsb is_message (map CliEngine t) = false.
Proof. induction t; [reflexivity | assumption]. Qed.

Lemma ends_well_prefix seen out :
  existsb is_table seen = false ->
  existsb is_message seen = false ->
  ends_well out -> ends_well (seen ++ fst out, snd out).
Proof.
  intros Hst Hsm. unfold ends_well. cbn [fst snd].
  destruct out as [shown [|code|]]; cbn [fst snd]; [| |easy].
  - intros (before & t & -> & Ht & Hm).
    exists (seen ++ before), t. rewrite app_assoc, !existsb_app.
    now rewrite Hst, Hsm, Ht, Hm.
  - intros (Hc & Ht & before & msg & -> & Hmsg & Hm).
    split; [assumption|]. split.
    + now rewrite existsb_app, Hst, Ht.
    + exists (seen ++ before), msg. rewrite app_assoc, existsb_app.
      now rewrite Hsm, Hm.
Qed.

Lemma hash_and_show_ends fs render file text h c :
  ends_well (hash_and_show fs render file text h c).
Proof.
  unfold hash_and_show.
  set (run := if truthy file then _ else _).
  assert (Hfuel : result run <> OutOfFuel).
  { subst run. destruct (truthy file);
      [apply hash_file_terminates | apply hash_text_terminates]. }
  destruct run as [t [results|e|]]; cbn [result snd] in Hfuel;
    [| |contradiction].
  - unfold _display_table. destruct (render _) as [e|];
      unfold ends_well; cbn [fst snd].
    + split; [reflexivity|]. split.
      * now rewrite !existsb_app, engine_not_table.
      * exists (map CliEngine t ++ [CliPrintText [10]]), (CliError e).
        rewrite <- !app_assoc. repeat split.
        now rewrite !existsb_app, engine_not_message.
    + eexists (map CliEngine t ++ [CliPrintText [10]]), _.
      rewrite <- !app_assoc. cbn [app]. repeat split.
      * now rewrite !existsb_app, engine_not_table.
      * now rewrite !existsb_app, engine_not_message.
  - unfold ends_well. cbn [fst snd]. split; [reflexivity|]. split.
    + now rewrite !existsb_app, engine_not_table.
    + exists (map CliEngine t), (CliError e). repeat split.
      apply engine_not_message.
Qed.

Lemma resolve_seen fs input file text :
  existsb is_table (fst (resolve fs input file text)) = false
  /\ existsb is_message (fst (resolve fs input file text)) = false.
Proof. unfold resolve. now destruct (_ && _). Qed.

(** X17: every run of [main] ends in one of two ways.  Either it
    finishes, and then the table is the last thing it shows, the only
    table, after no message; or it exits with status 1, and then a single
    message is the last thing it shows, and no table was shown.  It never
    exits with another status and never shows both. *)
Theorem main_ends (fs : filesystem) (render : table -> option exn)
    (input file text hash_algorithm : option pystr) (chunk_size : Z) :
  ends_well (main fs render input file text hash_algorithm chunk_size).
Proof.
  unfold main. destruct (resolve_seen fs input file text) as [Hst Hsm].
  destruct (resolve fs input file text) as [seen [file' text']].
  cbn [fst] in Hst, Hsm.
  destruct (negb (truthy file') && negb (truthy text')).
  - unfold ends_well. cbn [fst snd]. split; [reflexivity|]. split.
    + now rewrite existsb_app, Hst.
    + now eexists seen, _.
  - destruct (truthy file' && truthy text').
    + unfold ends_well. cbn [fst snd]. split; [reflexivity|]. split.
      * now rewrite existsb_app, Hst.
      * now eexists seen, _.
    + pose proof (hash_and_show_ends fs render file' text' hash_algorithm
                                     chunk_size) as H.
      apply (ends_well_prefix seen) in H; try assumption.
      now destruct (hash_and_show _ _ _ _ _ _).
Qed.

Lemma shown_rows kind label l data :
  table_rows
    (build_table
       (map (fun kv : pystr * pystr => (fst kv, kind, label, snd kv))
            (digests l data)))
  = map (shown_row kind label data) (first_occurrences l).
Proof.
  cbn [build_table table_rows]. unfold digests. now rewrite !map_map.
Qed.


(** X19: the same for a text that can be encoded: the rows hold the word
    [text], the text as a label and the digest of its UTF-8 encoding. *)
Theorem main_text_success (fs : filesystem) (render : table -> option exn)
    (input file text hash_algorithm : option pystr) (chunk_size : Z)
    (data : bytes) :
  truthy file = false -> truthy text = true ->
  encode_utf8 (given text) = ret data ->
  supported (parse_algorithms hash_algorithm) ->
  0 < chunk_size ->
  (forall t, render t = None) ->
  exists before t,
    main fs render input file text hash_algorithm chunk_size
    = (before ++ [CliPrintText [10]; CliPrintTable t], Finished)
    /\ existsb is_message before = false
    /\ table_rows t
       = map (shown_row (str "text") (given text) data)
             (first_occurrences (parse_algorithms hash_algorithm)).
Proof.
  intros Hf Ht He Hs Hc Hr.
  rewrite (main_settled fs render [] input file text file text)
    by (try apply resolve_given; now rewrite Hf, Ht).
  unfold hash_and_show. rewrite Hf.
  rewrite (hash_text_positive _ data) by assumption.
  unfold _display_table. rewrite Hr. cbn [fst snd app].
  eexists _, _. split; [reflexivity|]. split.
  - apply engine_not_message.
  - unfold py_or. rewrite Hf. apply shown_rows.
Qed.

(** X20: whatever exception the engine raises, [main] catches it, shows
    it in one error line after the events of the engine, shows no table
    and exits with status 1: a missing file, an unsupported name, a text
    that cannot be encoded, a chunk size of zero for a text. *)
Theorem main_reports_failure (fs : filesystem) (render : table -> option exn)
    (input file text hash_algorithm : option pystr) (chunk_size : Z)
    (t : trace) (e : exn) :
  xorb (truthy file) (truthy text) = true ->
  (if truthy file
   then hash_file fs (given file)
                  (Some (parse_algorithms hash_algorithm)) chunk_size
   else hash_text (given text)
                  (Some (parse_algorithms hash_algorithm)) chunk_size)
  = (t, Raise e) ->
  main fs render input file text hash_algorithm chunk_size
  = (map CliEngine t ++ [CliError e], Exit 1).
Proof.
  intros Hx Hrun.
  rewrite (main_settled fs render [] input file text file text);
    [| apply resolve_given; now destruct (truthy file), (truthy text)
     | assumption].
  unfold hash_and_show. now rewrite Hrun.
Qed.

(** * The further properties at concrete inputs *)

(** Splits the conjunctions of the goal, closing each left part. *)
Ltac premises tac :=
  lazymatch goal with
  | |- _ /\ _ => split; [tac | premises tac]
  | _ => idtac
  end.

(** The text [abc] with [chunk_size_mb = -1]. *)
Lemma hash_text_negative_chunk_witness :
  encode_utf8 (str "abc") = ret (hashlib.ascii_bytes "abc")
  /\ supported (requested None)
  /\ -1 < 0
  /\ (forall key, fed key (events (hash_text (str "abc") None (-1))) = []).
Proof.
  assert (H0 : encode_utf8 (str "abc") = ret (hashlib.ascii_bytes "abc"))
    by (vm_compute; reflexivity).
  assert (H1 : supported (requested None)) by supported_list.
  assert (H2 : -1 < 0) by lia.
  premises assumption.
  now destruct (hash_text_negative_chunk _ _ _ _ H0 H1 H2) as (_ & Hfed & _).
Defined.

(** The file [a.txt] with [chunk_size_mb = -1]. *)
Lemma hash_file_negative_chunk_witness :
  example_fs (str "a.txt") = Some (RegularFile (hashlib.ascii_bytes "abc"))
  /\ supported (requested None)
  /\ -1 < 0
  /\ - sys_maxsize - 1 <= -1 * 1024 * 1024
  /\ result (hash_file example_fs (str "a.txt") None (-1))
     = Raise (ValueError (str "read length must be non-negative or -1")).
Proof.
  assert (H0 : example_fs (str "a.txt")
               = Some (RegularFile (hashlib.ascii_bytes "abc")))
    by (vm_compute; reflexivity).
  assert (H1 : supported (requested None)) by supported_list.
  assert (H2 : -1 < 0) by lia.
  assert (H3 : - sys_maxsize - 1 <= -1 * 1024 * 1024)
    by (unfold sys_maxsize; lia).
  premises assumption.
  now rewrite (hash_file_negative_chunk _ _ _ _ _ H0 H1 H2 H3).
Defined.

(** The file [a.txt] with [chunk_size_mb = 2 ^ 43]. *)
Lemma oversized_chunk_witness :
  supported (requested None)
  /\ (8796093022208 * 1024 * 1024 < - sys_maxsize - 1
      \/ sys_maxsize < 8796093022208 * 1024 * 1024)
  /\ example_fs (str "a.txt") = Some (RegularFile (hashlib.ascii_bytes "abc"))
  /\ result (hash_file example_fs (str "a.txt") None 8796093022208)
     = Raise OverflowError.
Proof.
  assert (H0 : supported (requested None)) by supported_list.
  assert (H1 : 8796093022208 * 1024 * 1024 < - sys_maxsize - 1
               \/ sys_maxsize < 8796093022208 * 1024 * 1024)
    by (unfold sys_maxsize; lia).
  assert (H2 : example_fs (str "a.txt")
               = Some (RegularFile (hashlib.ascii_bytes "abc")))
    by (vm_compute; reflexivity).
  split; [assumption|]. split; [assumption|]. split; [assumption|].
  destruct (oversized_chunk None 8796093022208 H0 H1) as [Hf _].
  now rewrite (Hf _ _ _ H2).
Defined.




(** The MD5 digest of the empty text has 32 hexadecimal digits. *)
Lemma digest_format_witness :
  supported (requested None)
  /\ dict_get (str "md5") (digests default_hash_algorithms [])
     = Some (str "d41d8cd98f00b204e9800998ecf8427e")
  /\ result (hash_text [] None 8)
     = Return (digests default_hash_algorithms [])
  /\ exists a,
      getattr_hashlib (str "md5") = Some a
      /\ length (str "d41d8cd98f00b204e9800998ecf8427e")
         = (2 * digest_size a)%nat
      /\ Forall lower_hex (str "d41d8cd98f00b204e9800998ecf8427e").
Proof.
  assert (H0 : supported (requested None)) by supported_list.
  assert (H1 : dict_get (str "md5") (digests default_hash_algorithms [])
               = Some (str "d41d8cd98f00b204e9800998ecf8427e"))
    by (vm_compute; reflexivity).
  assert (H2 : result (hash_text [] None 8)
               = Return (digests default_hash_algorithms []))
    by (vm_compute; reflexivity).
  premises assumption.
  apply (digest_format None _ _ _ H0 H1).
  left. now exists [], 8.
Defined.

(** Ten letters shortened to seven characters: two, the dots, two. *)
Lemma shortened_length_witness :
  5 <= 7 /\ 7 < len (str "abcdefghij")
  /\ _shorten_middle_text (str "abcdefghij") 7 = str "ab...ij"
  /\ len (_shorten_middle_text (str "abcdefghij") 7) = 7.
Proof.
  assert (H0 : 5 <= 7) by lia.
  assert (H1 : 7 < len (str "abcdefghij")) by (vm_compute; reflexivity).
  split; [assumption|]. split; [assumption|].
  destruct (shortened_length (str "abcdefghij") 7 H0 H1) as [E L].
  split; [rewrite E; reflexivity | exact L].
Defined.

Lemma shorten_idempotent_witness :
  5 <= 7
  /\ _shorten_middle_text (_shorten_middle_text (str "abcdefghij") 7) 7
     = _shorten_middle_text (str "abcdefghij") 7.
Proof.
  assert (H0 : 5 <= 7) by lia.
  split; [assumption|]. exact (shorten_idempotent (str "abcdefghij") 7 H0).
Defined.

(** Five letters and a maximum of four: eight characters come back. *)
Lemma shorten_zero_part_witness :
  (4 = 3 \/ 4 = 4) /\ 4 < len (str "abcde")
  /\ _shorten_middle_text (str "abcde") 4 = str "...abcde".
Proof.
  assert (H0 : 4 = 3 \/ 4 = 4) by lia.
  assert (H1 : 4 < len (str "abcde")) by (vm_compute; reflexivity).
  premises assumption.
  now destruct (shorten_zero_part (str "abcde") 4 H0 H1) as [-> _].
Defined.

(** The default request, as the help text writes it, parses back. *)
Lemma parse_join_round_trip_witness :
  default_hash_algorithms <> []
  /\ Forall (fun x => x <> [] /\ ~ In comma x /\ py_strip x = x)
            default_hash_algorithms
  /\ parse_algorithms (Some (str "md5, sha1, sha256, sha512"))
     = default_hash_algorithms.
Proof.
  assert (H0 : default_hash_algorithms <> []) by discriminate.
  assert (H1 : Forall (fun x => x <> [] /\ ~ In comma x /\ py_strip x = x)
                      default_hash_algorithms).
  { repeat constructor; try discriminate;
      intros H; unfold comma in H; simpl in H; lia. }
  premises assumption.
  exact (parse_join_round_trip default_hash_algorithms H0 H1).
Defined.

(** Both [--file a.txt] and [--text abc]. *)
Lemma main_ambiguous_input_witness :
  truthy (Some (str "a.txt")) = true /\ truthy (Some (str "abc")) = true
  /\ main example_fs quiet_render None (Some (str "a.txt"))
          (Some (str "abc")) None 8
     = ([CliEcho (str "Error: choose only one of --file or --text")], Exit 1).
Proof.
  premises reflexivity.
  now apply main_ambiguous_input.
Defined.

(** No argument at all, but for an empty [--text]. *)
Lemma main_missing_input_witness :
  truthy None = false /\ truthy (Some []) = false
  /\ main example_fs quiet_render None None (Some []) None 8
     = ([CliEcho (str "Error: provide --file or --text")], Exit 1).
Proof.
  premises reflexivity.
  now apply main_missing_input.
Defined.

(** The positional argument [a.txt], an existing file, is taken as the
    file. *)
Lemma main_positional_witness :
  truthy (Some (str "a.txt")) = true /\ truthy None = false
  /\ os_path_isfile example_fs (str "a.txt") = true
  /\ (let rest :=
        if os_path_isfile example_fs (given (Some (str "a.txt")))
        then main example_fs quiet_render None (Some (str "a.txt"))
                  None None 8
        else main example_fs quiet_render None None (Some (str "a.txt"))
                  None 8 in
      main example_fs quiet_render (Some (str "a.txt")) None None None 8
      = (CliIsFile (given (Some (str "a.txt"))) :: fst rest, snd rest)).
Proof.
  split; [reflexivity|]. split; [reflexivity|]. split; [reflexivity|].
  exact (main_positional example_fs quiet_render (Some (str "a.txt"))
                         None None None 8 eq_refl eq_refl eq_refl).
Defined.


(** [--text abc] *)
Lemma main_text_success_witness :
  truthy None = false /\ truthy (Some (str "abc")) = true
  /\ encode_utf8 (given (Some (str "abc"))) = ret (hashlib.ascii_bytes "abc")
  /\ supported (parse_algorithms None)
  /\ 0 < 8
  /\ (forall t, quiet_render t = None)
  /\ snd (main example_fs quiet_render None None (Some (str "abc")) None 8)
     = Finished.
Proof.
  assert (H0 : encode_utf8 (given (Some (str "abc")))
               = ret (hashlib.ascii_bytes "abc"))
    by (vm_compute; reflexivity).
  assert (H1 : supported (parse_algorithms None)) by supported_list.
  assert (H2 : 0 < 8) by lia.
  assert (H3 : forall t, quiet_render t = None) by reflexivity.
  premises ltac:(first [assumption | reflexivity]).
  destruct (main_text_success example_fs quiet_render None None
              (Some (str "abc")) None 8 _
              eq_refl eq_refl H0 H1 H2 H3) as (before & t & -> & _).
  reflexivity.
Defined.

(** [--file missing.txt] *)
Lemma main_reports_failure_witness :
  xorb (truthy (Some (str "missing.txt"))) (truthy None) = true
  /\ hash_file example_fs (str "missing.txt")
               (Some (parse_algorithms None)) 8
     = ([], Raise (FileNotFoundError
                     (str "Not found file_path: missing.txt")))
  /\ main example_fs quiet_render None (Some (str "missing.txt")) None None 8
     = ([CliError (FileNotFoundError
                     (str "Not found file_path: missing.txt"))],
        Exit 1).
Proof.
  assert (H0 : xorb (truthy (Some (str "missing.txt"))) (truthy None) = true)
    by reflexivity.
  assert (H1 : hash_file example_fs (str "missing.txt")
                         (Some (parse_algorithms None)) 8
               = ([], Raise (FileNotFoundError
                               (str "Not found file_path: missing.txt"))))
    by (vm_compute; reflexivity).
  premises assumption.
  exact (main_reports_failure example_fs quiet_render None
           (Some (str "missing.txt")) None None 8 _ _ H0 H1).
Defined.
